(** * '@' file inclusion: the two output generators and the import scanner

    Shallow embedding of
    - [integration-tests/claude-compatibility.test.js]:
      [generateClaudeStyleOutput], [generateGeminiTreeOutput], [TEST_FILES];
    - [scripts/find-claude-md-examples.cjs]: [analyzeClaudeFile].

    JavaScript strings are modelled as [string], one character per UTF-16
    code unit below 256.  A JavaScript object used as a dictionary from
    paths to texts is a [gmap string string] of its own string-valued
    properties; reading a key that is not there gives [undefined] (or, for a
    name such as [constructor], an inherited value that is not a string), on
    which [.trim()] and [.split()] throw a [TypeError]: the generators
    therefore return an [option].  The keys read in the import map are
    results of [path.resolve], which begin with [/] and so never name an
    inherited property. *)

From Stdlib Require Import Ascii String DecimalString.
From stdpp Require Import gmap strings list sorting.

(** Let [simpl] compute the concatenation of strings built from literals. *)
#[local] Arguments String.append !_ _ / : simpl nomatch.

(** ** JavaScript string primitives *)
Module Js.

(** Code units matched by the regular expression class [\s] and removed by
    [String.prototype.trim]: TAB, LF, VT, FF, CR, SPACE and NBSP (the other
    members of the class are above U+00FF). *)
Definition is_ws (c : ascii) : bool :=
  match N_of_ascii c with
  | 9%N | 10%N | 11%N | 12%N | 13%N | 32%N | 160%N => true
  | _ => false
  end.

Definition LF : ascii := ascii_of_N 10.

(** [s.split('\n')]: the pieces between the separators; never empty. *)
Fixpoint split (sep : ascii) (s : string) : list string :=
  match s with
  | EmptyString => [""]
  | String c s' =>
      if Ascii.eqb c sep then "" :: split sep s'
      else match split sep s' with
           | [] => [String c ""]
           | w :: ws => String c w :: ws
           end
  end.

(** [a.join(sep)] on an array of strings. *)
Fixpoint join (sep : string) (a : list string) : string :=
  match a with
  | [] => ""
  | x :: rest =>
      match rest with
      | [] => x
      | _ :: _ => x +:+ sep +:+ join sep rest
      end
  end.

Fixpoint trimStart (s : string) : string :=
  match s with
  | EmptyString => ""
  | String c s' => if is_ws c then trimStart s' else s
  end.

Fixpoint trimEnd (s : string) : string :=
  match s with
  | EmptyString => ""
  | String c s' =>
      match trimEnd s' with
      | EmptyString => if is_ws c then "" else String c ""
      | t => String c t
      end
  end.

(** [s.trim()] *)
Definition trim (s : string) : string := trimEnd (trimStart s).

(** The longest prefix matched by [[^\s]*]. *)
Fixpoint takeNonWs (s : string) : string :=
  match s with
  | EmptyString => ""
  | String c s' => if is_ws c then "" else String c (takeNonWs s')
  end.

(** [line.match(/@([^\s]+)/)], reduced to its capture group [atMatch[1]]:
    the regular expression has no [g] flag, so the engine tries the start
    positions from the left and stops at the first [@] that is followed by
    at least one non-whitespace code unit; the group is greedy. *)
Fixpoint matchAt (line : string) : option string :=
  match line with
  | EmptyString => None
  | String c rest =>
      if Ascii.eqb c "@" then
        match takeNonWs rest with
        | EmptyString => matchAt rest
        | p => Some p
        end
      else matchAt rest
  end.

(** Truthiness of a string value: only the empty string is falsy. *)
Definition truthy (s : string) : bool :=
  match s with
  | EmptyString => false
  | String _ _ => true
  end.

End Js.

(** ** Node's [path] module (POSIX flavour)

    [path.dirname] and [path.resolve] belong to the platform, not to the
    repository.  They are modelled after Node's [lib/path.js]; the current
    working directory, which [path.resolve] reads through [process.cwd()],
    is the explicit argument [cwd]. *)
Module NodePath.

Definition is_slash (c : ascii) : bool := Ascii.eqb c "/".

Definition isAbsolute (p : string) : bool :=
  match p with
  | String c _ => is_slash c
  | EmptyString => false
  end.

(** Drop the longest prefix whose members satisfy [f]. *)
Fixpoint skip (f : ascii -> bool) (l : list ascii) : list ascii :=
  match l with
  | [] => []
  | c :: l' => if f c then skip f l' else l
  end.

(** [path.dirname]: the loop runs from the last index down to index 1; it
    steps over trailing separators, then over the last component, and stops
    on the separator before it (index [end]). *)
Definition dirname (path : string) : string :=
  match path with
  | EmptyString => "."
  | String c rest =>
      let hasRoot := is_slash c in
      let back := rev (list_ascii_of_string rest) in
      let upto := skip (fun x => negb (is_slash x)) (skip is_slash back) in
      match upto with
      | [] => if hasRoot then "/" else "."
      | _ :: before =>
          if hasRoot && Nat.eqb (length upto) 1 then "//"
          else String c (string_of_list_ascii (rev before))
      end
  end.

(** Components of a path, separated by [/]. *)
Definition segments (p : string) : list string := Js.split "/" p.

(** One step of [normalizeString] on the stack of kept components (most
    recent first). *)
Definition normStep (allowAboveRoot : bool) (stack : list string) (seg : string)
  : list string :=
  if String.eqb seg "" || String.eqb seg "." then stack
  else if String.eqb seg ".." then
    match stack with
    | top :: below =>
        if String.eqb top ".." then
          (if allowAboveRoot then seg :: stack else stack)
        else below
    | [] => if allowAboveRoot then [seg] else []
    end
  else seg :: stack.

Definition normalizeString (path : string) (allowAboveRoot : bool) : string :=
  Js.join "/" (rev (fold_left (normStep allowAboveRoot) (segments path) [])).

(** [path.resolve(a, b)] with two arguments: the arguments are taken from
    the right until an absolute one is met, [process.cwd()] coming last;
    empty arguments are skipped. *)
Definition resolveStep (acc : string * bool) (path : string) : string * bool :=
  let '(resolvedPath, resolvedAbsolute) := acc in
  if resolvedAbsolute then acc
  else match path with
       | EmptyString => acc
       | String _ _ => (path +:+ "/" +:+ resolvedPath, isAbsolute path)
       end.

Definition resolve (cwd a b : string) : string :=
  let '(resolvedPath, resolvedAbsolute) :=
    fold_left resolveStep [b; a; cwd] ("", false) in
  let normalized := normalizeString resolvedPath (negb resolvedAbsolute) in
  if resolvedAbsolute then "/" +:+ normalized
  else match normalized with
       | EmptyString => "."
       | String _ _ => normalized
       end.

End NodePath.

Import Js.

(** ** [integration-tests/claude-compatibility.test.js] *)

(** The text separating two array elements in [output.join('\n\n')] and
    [processedLines.join('\n')]. *)
Definition NL : string := String LF "".
Definition NLNL : string := String LF (String LF "").

(** *** [generateClaudeStyleOutput] *)

Definition fileMarker (filePath : string) : string :=
  "--- File: " +:+ filePath +:+ " ---".
Definition endOfFileMarker (filePath : string) : string :=
  "--- End of File: " +:+ filePath +:+ " ---".

(** The body of the [for ... of processedFiles] loop: three [push]es on the
    [output] array, or the [TypeError] of [undefined.trim()]. *)
Definition claudeStep (files : gmap string string)
    (output : option (list string)) (filePath : string) : option (list string) :=
  match output with
  | None => None
  | Some out =>
      match files !! filePath with
      | None => None
      | Some content =>
          Some (out ++ [fileMarker filePath; trim content; endOfFileMarker filePath])
      end
  end.

(** The [output] array when the loop is over. *)
Definition claudeOutputArray (files : gmap string string)
    (processedFiles : list string) : option (list string) :=
  fold_left (claudeStep files) processedFiles (Some []).

Definition generateClaudeStyleOutput (files : gmap string string)
    (processedFiles : list string) : option string :=
  match claudeOutputArray files processedFiles with
  | Some output => Some (join NLNL output)
  | None => None
  end.

(** *** [generateGeminiTreeOutput] *)

Definition importedFromMarker (importPath : string) : string :=
  "<!-- Imported from: " +:+ importPath +:+ " -->".
Definition endOfImportMarker (importPath : string) : string :=
  "<!-- End of import from: " +:+ importPath +:+ " -->".
Definition importFailedMarker (importPath : string) : string :=
  "<!-- Import failed: " +:+ importPath +:+ " -->".

(** [path.resolve(path.dirname(filePath), importPath)] *)
Definition fullImportPath (cwd filePath importPath : string) : string :=
  NodePath.resolve cwd (NodePath.dirname filePath) importPath.

(** [if (importMap[fullImportPath])]: the entry when it is there and truthy. *)
Definition importLookup (importMap : gmap string string) (key : string)
  : option string :=
  match importMap !! key with
  | Some text => if truthy text then Some text else None
  | None => None
  end.

(** The body of the [for ... of lines] loop: what one line pushes on
    [processedLines]. *)
Definition processLine (cwd : string) (importMap : gmap string string)
    (filePath line : string) : list string :=
  match matchAt line with
  | Some importPath =>
      match importLookup importMap (fullImportPath cwd filePath importPath) with
      | Some text =>
          [importedFromMarker importPath; trim text; endOfImportMarker importPath]
      | None => [importFailedMarker importPath]
      end
  | None => [line]
  end.

(** The [processedLines] array of one file when its loop is over. *)
Definition processedLinesOf (cwd : string) (importMap : gmap string string)
    (filePath content : string) : list string :=
  fold_left (fun processedLines line =>
               processedLines ++ processLine cwd importMap filePath line)
            (split LF content) [].

(** The body of the outer loop: one [push] on [output], or the [TypeError]
    of [undefined.split]. *)
Definition geminiStep (cwd : string) (files importMap : gmap string string)
    (output : option (list string)) (filePath : string) : option (list string) :=
  match output with
  | None => None
  | Some out =>
      match files !! filePath with
      | None => None
      | Some content =>
          Some (out ++ [join NL (processedLinesOf cwd importMap filePath content)])
      end
  end.

Definition geminiOutputArray (cwd : string) (files : gmap string string)
    (processedFiles : list string) (importMap : gmap string string)
  : option (list string) :=
  fold_left (geminiStep cwd files importMap) processedFiles (Some []).

Definition generateGeminiTreeOutput (cwd : string) (files : gmap string string)
    (processedFiles : list string) (importMap : gmap string string)
  : option string :=
  match geminiOutputArray cwd files processedFiles importMap with
  | Some output => Some (join NLNL output)
  | None => None
  end.

(** ** [scripts/find-claude-md-examples.cjs]: [analyzeClaudeFile] *)

Record AtImport := {
  ai_line : nat;          (* line: i + 1 *)
  ai_import : string;     (* import: atMatch[1] *)
  ai_context : string     (* context: line.trim() *)
}.

Record Analysis := {
  an_repo : string;
  an_filePath : string;
  totalLines : nat;
  atImports : list AtImport;
  hasImports : bool;
  importCount : nat
}.

(** The [for (let i = 0; i < lines.length; i++)] loop, from index [i] on. *)
Fixpoint scanLines (i : nat) (lines : list string) (acc : list AtImport)
  : list AtImport :=
  match lines with
  | [] => acc
  | line :: rest =>
      match matchAt line with
      | Some p =>
          scanLines (S i) rest
            (acc ++ [{| ai_line := i + 1; ai_import := p; ai_context := trim line |}])
      | None => scanLines (S i) rest acc
      end
  end.

Definition analyzeClaudeFile (content repo filePath : string) : Analysis :=
  let lines := split LF content in
  let imports := scanLines 0 lines [] in
  {| an_repo := repo;
     an_filePath := filePath;
     totalLines := length lines;
     atImports := imports;
     hasImports := Nat.ltb 0 (length imports);
     importCount := length imports |}.

(** *** The mock file structure [TEST_FILES] *)

Definition main_md : string := "# Main Document

This is the main content.

@./components/header.md

More content here.

@./components/footer.md

@./shared/config.md
".

Definition header_md : string := "# Header Component

@./shared/title.md

This is the header content.
".

Definition footer_md : string := "# Footer Component

This is the footer content.

@./shared/links.md
".

Definition title_md : string := "# Project Title

This is the shared title content.
".

Definition config_md : string := "# Configuration

This is the configuration content.
".

Definition circular_a_md : string := "# Circular A

@./circular-b.md

Content A
".

Definition circular_b_md : string := "# Circular B

@./circular-a.md

Content B
".

Definition duplicate_test_md : string := "# Duplicate Test

@./shared/config.md

Content here.

@./shared/config.md

More content.
".

Definition links_md : string := "# Links

- [Home](./main.md)
- [Header](./components/header.md)
".

Definition nested_test_md : string := "# Nested Test

@./deep/nested/file.md
".

Definition deep_nested_file_md : string := "# Deep Nested File

@../../shared/config.md

Deep content.
".

Definition TEST_FILES : gmap string string :=
  list_to_map
    [ ("main.md", main_md);
      ("components/header.md", header_md);
      ("components/footer.md", footer_md);
      ("shared/title.md", title_md);
      ("shared/config.md", config_md);
      ("shared/links.md", links_md);
      ("circular-a.md", circular_a_md);
      ("circular-b.md", circular_b_md);
      ("duplicate-test.md", duplicate_test_md);
      ("nested-test.md", nested_test_md);
      ("deep/nested/file.md", deep_nested_file_md) ].

(** ** The specification's engine, where the code has no counterpart

    These definitions follow the words of the specification, not the code;
    they serve to compare the code with the behaviour the specification
    describes. *)
Module Spec.





(** Hierarchical renderer, "replacing every directive occurrence with the
    referenced document's own fully recursively-rendered content, wrapped in
    begin/end import markers": the referenced text is rendered in its turn,
    relative to its own location; [fuel] bounds the nesting depth. *)
Fixpoint renderHierarchical (fuel : nat) (cwd : string)
    (importMap : gmap string string) (filePath content : string) : string :=
  join NL
    (flat_map
       (fun line =>
          match matchAt line with
          | Some importPath =>
              let target := fullImportPath cwd filePath importPath in
              match importLookup importMap target with
              | Some text =>
                  [importedFromMarker importPath;
                   match fuel with
                   | O => trim text
                   | S fuel' =>
                       renderHierarchical fuel' cwd importMap target (trim text)
                   end;
                   endOfImportMarker importPath]
              | None => [importFailedMarker importPath]
              end
          | None => [line]
          end)
       (split LF content)).

(** First-encounter order, "the order in which a depth-first traversal
    starting at the root first visits each distinct canonical path":
    [visited] is the order so far; a path already in it is not visited
    again. *)
Fixpoint firstEncounter (fuel : nat) (cwd : string) (files : gmap string string)
    (visited : list string) (canonical : string) : list string :=
  match fuel with
  | O => visited
  | S fuel' =>
      if bool_decide (canonical ∈ visited) then visited
      else match files !! canonical with
           | None => visited
           | Some content =>
               fold_left
                 (fun seen line =>
                    match matchAt line with
                    | Some importPath =>
                        firstEncounter fuel' cwd files seen
                          (fullImportPath cwd canonical importPath)
                    | None => seen
                    end)
                 (split LF content) (visited ++ [canonical])
           end
  end.

(** Root boundary, "the normalized result must remain within the root
    boundary": [resolved] is the boundary itself or lies below it. *)
Definition withinRoot (rootBoundary resolved : string) : bool :=
  String.eqb resolved rootBoundary
  || String.prefix (rootBoundary +:+ "/") resolved.

(** The raw path of a directive, "the directive's path runs until the first
    unescaped whitespace; a backslash immediately before whitespace escapes
    it": the text after the [@] as it is written, backslashes included, up
    to the first whitespace that no backslash precedes. *)
Fixpoint rawPath (afterAt : string) : string :=
  match afterAt with
  | EmptyString => ""
  | String c rest =>
      if Ascii.eqb c (ascii_of_N 92) then
        match rest with
        | String d rest' =>
            if is_ws d then String c (String d (rawPath rest'))
            else String c (rawPath rest)
        | EmptyString => String c ""
        end
      else if is_ws c then ""
      else String c (rawPath rest)
  end.

End Spec.

(** *** Reading the [output] array back *)

(** The array elements taken three by three: begin marker, inner content,
    end marker. *)
Fixpoint blocksOf (output : list string) : list (string * string * string) :=
  match output with
  | b :: c :: e :: rest => (b, c, e) :: blocksOf rest
  | _ => []
  end.

(** Number of boundary blocks of [output] opened by the marker of
    [filePath]. *)
Definition countBlocks (filePath : string) (output : list string) : nat :=
  length (filter (fun blk => blk.1.1 = fileMarker filePath) (blocksOf output)).

(** Number of entries of [processedFiles] equal to [filePath]. *)
Definition countListed (filePath : string) (processedFiles : list string) : nat :=
  length (filter (fun p => p = filePath) processedFiles).

(** The opening markers of the boundary blocks of [output], in order. *)
Definition blockMarkers (output : list string) : list string :=
  map (fun blk => blk.1.1) (blocksOf output).

(** [s] occurs in [t] as a contiguous piece. *)
Fixpoint occursIn (s t : string) : bool :=
  String.prefix s t ||
  match t with
  | EmptyString => false
  | String _ t' => occursIn s t'
  end.

(** *** Example inputs *)

(** The end-to-end scenario of the specification, stored under absolute
    paths: [main] refers to [header], then to [footer]; [header] refers to
    [title]. *)
Definition NESTED_FILES : gmap string string :=
  list_to_map
    [ ("/project/main.md", "# Main

@./header.md

Body.

@./footer.md
");
      ("/project/header.md", "# Header

@./title.md
");
      ("/project/title.md", "# Title
");
      ("/project/footer.md", "# Footer
") ].

(** The two circular test files as an import map keyed by the paths that
    [path.resolve] produces when the working directory is [/w]. *)
Definition CIRCULAR_IMPORTS : gmap string string :=
  list_to_map
    [ ("/w/circular-a.md", circular_a_md);
      ("/w/circular-b.md", circular_b_md) ].


(** A document that begins with an indented code block. *)
Definition INDENTED_md : string := "    make install

Run the line above.
".

(** The backslash, for the texts that end with one. *)
Definition BS : string := String (ascii_of_N 92) "".

(** The path with an escaped space of the repository's syntax document,
    "File with spaces: [@My\ Documents/file.txt]", and an import map that
    holds a file under the part of that path that precedes the space. *)
Definition SPACES_md : string := "@My\ Documents/file.txt".

Definition SPACES_IMPORTS : gmap string string :=
  {[ "/w/My" +:+ BS := "Shared notes" ]}.

(** A directive that climbs out of the project, and an import map that
    holds the file it reaches. *)
Definition GUIDE_md : string := "See @../../../etc/passwd for the accounts.".

Definition OUTSIDE_IMPORTS : gmap string string :=
  list_to_map [ ("/etc/passwd", "root:x:0:0:root:/root:/bin/sh") ].

(** *** Notions used in the statements *)

(** No whitespace code unit in [s]: [s] can be the capture group of the
    pattern. *)
Fixpoint wsFree (s : string) : bool :=
  match s with
  | EmptyString => true
  | String c s' => negb (is_ws c) && wsFree s'
  end.

(** What may follow the capture group on a line: nothing, or text that
    begins with a whitespace code unit. *)
Definition tokenEnd (post : string) : bool :=
  match post with
  | EmptyString => true
  | String c _ => is_ws c
  end.

(** Does the pattern match the line at all? *)
Definition hasDirective (line : string) : bool :=
  match matchAt line with
  | Some _ => true
  | None => false
  end.

(** The text of a listed file; the default is never read when the file is
    there. *)
Definition textOf (files : gmap string string) (filePath : string) : string :=
  default "" (files !! filePath).

Definition claudeBlock (files : gmap string string) (filePath : string)
  : list string :=
  [fileMarker filePath; trim (textOf files filePath); endOfFileMarker filePath].

Definition geminiSection (cwd : string) (files importMap : gmap string string)
    (filePath : string) : string :=
  join NL (flat_map (processLine cwd importMap filePath)
                    (split LF (textOf files filePath))).

(** ** [scripts/find-claude-md-examples.cjs]: [generateReport] and [main] *)

(** [${n}] in a template literal, for a count. *)
Definition numberToString (n : nat) : string :=
  NilEmpty.string_of_uint (Nat.to_uint n).

Module Report.

(** The value of [averageImportsPerFile]: the literal [0] it starts with, or
    the floating-point quotient [totalImports / filesWithImports], kept as
    its two operands (the division is not evaluated: a zero divisor gives
    [NaN] when the dividend is zero and [Infinity] otherwise). *)
Inductive Average :=
  | Zero
  | Quotient (dividend divisor : nat).

Record Summary := {
  totalFiles : nat;
  filesWithImports : nat;
  totalImports : nat;
  averageImportsPerFile : Average
}.

Record t := {
  summary : Summary;
  files : list Analysis;
  recommendations : list string
}.

End Report.

(** [results.filter(r => r.hasImports)] *)
Definition withImports (results : list Analysis) : list Analysis :=
  filter (fun r => hasImports r = true) results.

(** [results.reduce((sum, r) => sum + r.importCount, 0)] *)
Definition sumImportCounts (results : list Analysis) : nat :=
  fold_left (fun sum r => sum + importCount r) results 0.

Definition generateReport (results : list Analysis) : Report.t :=
  let nWith := length (withImports results) in
  let total := sumImportCounts results in
  {| Report.summary :=
       {| Report.totalFiles := length results;
          Report.filesWithImports := nWith;
          Report.totalImports := total;
          Report.averageImportsPerFile :=
            if Nat.ltb 0 (length results) then Report.Quotient total nWith
            else Report.Zero |};
     Report.files := results;
     Report.recommendations :=
       if Nat.ltb 0 (length (withImports results)) then
         [ numberToString (length (withImports results)) +:+
             " real-world CLAUDE.md files use '@' inclusion syntax";
           "These files would be affected by differences between Claude Code and Gemini CLI implementations";
           "Consider testing these files with both implementations to identify compatibility issues" ]
       else [] |}.

(** *** The collecting loop of [main]

    The network is outside the program: [searchGitHub] and [getFileContent]
    are the answers it gives.  A search is rejected ([None]) or resolves to
    the parsed response, whose [items] may be missing; a download is
    rejected, or resolves to [null] or to the decoded text. *)


(** The double quote, for the queries that hold one. *)
Definition DQ : string := String (ascii_of_N 34) "".

Definition SEARCH_QUERIES : list string :=
  [ "filename:CLAUDE.md " +:+ DQ +:+ "@" +:+ DQ;
    "filename:claude.md " +:+ DQ +:+ "@" +:+ DQ;
    "filename:CLAUDE.md " +:+ DQ +:+ "@./" +:+ DQ;
    "filename:claude.md " +:+ DQ +:+ "@./" +:+ DQ;
    "filename:CLAUDE.md " +:+ DQ +:+ "@/" +:+ DQ;
    "filename:claude.md " +:+ DQ +:+ "@/" +:+ DQ ].

(** An element of [results.items]: [item.repository.full_name] and
    [item.path]. *)
Record Item := {
  full_name : string;
  path : string
}.

Record SearchResults := {
  items : option (list Item)
}.

Inductive Fetched :=
  | Resolved (content : option string)
  | Rejected.

(** [`${item.repository.full_name}:${item.path}`] *)
Definition fileKey (item : Item) : string :=
  full_name item +:+ ":" +:+ path item.

(** The two variables the loop updates. *)
Record Collected := {
  allResults : list Analysis;
  seenFiles : gset string
}.

(** The body of [for (const item of results.items)]: a key seen before is
    skipped; a new key is added to [seenFiles] before the download, whose
    rejection is caught and whose [null] or empty text is passed over. *)
Definition itemStep (getFileContent : string -> string -> Fetched)
    (st : Collected) (item : Item) : Collected :=
  if decide (fileKey item ∈ seenFiles st) then st
  else
    let seen := seenFiles st ∪ {[ fileKey item ]} in
    match getFileContent (full_name item) (path item) with
    | Resolved (Some content) =>
        if truthy content then
          {| allResults :=
               allResults st ++
               [analyzeClaudeFile content (full_name item) (path item)];
             seenFiles := seen |}
        else {| allResults := allResults st; seenFiles := seen |}
    | Resolved None => {| allResults := allResults st; seenFiles := seen |}
    | Rejected => {| allResults := allResults st; seenFiles := seen |}
    end.

(** The body of [for (const query of SEARCH_QUERIES)]: a rejected search is
    caught and a response without [items] is passed over. *)
Definition queryStep (searchGitHub : string -> option SearchResults)
    (getFileContent : string -> string -> Fetched)
    (st : Collected) (query : string) : Collected :=
  match searchGitHub query with
  | Some results =>
      match items results with
      | Some its => fold_left (itemStep getFileContent) its st
      | None => st
      end
  | None => st
  end.

Definition collect (searchGitHub : string -> option SearchResults)
    (getFileContent : string -> string -> Fetched)
    (queries : list string) : Collected :=
  fold_left (queryStep searchGitHub getFileContent) queries
            {| allResults := []; seenFiles := ∅ |}.

(** [.sort((a, b) => b.importCount - a.importCount)]: [Array.prototype.sort]
    is stable, and this comparison orders by decreasing [importCount]; the
    result is the stable arrangement, computed here by insertion from the
    right (an element goes before the first one that is not greater). *)
Fixpoint insertByCount (x : Analysis) (sorted : list Analysis) : list Analysis :=
  match sorted with
  | [] => [x]
  | y :: rest =>
      if Nat.ltb (importCount x) (importCount y) then y :: insertByCount x rest
      else x :: sorted
  end.

Definition sortByImportCount (l : list Analysis) : list Analysis :=
  foldr insertByCount [] l.

(** [allResults.filter(r => r.hasImports).sort(...).slice(0, 5)] *)
Definition topFiles (results : list Analysis) : list Analysis :=
  take 5 (sortByImportCount (withImports results)).

(** What [main] computes from the answers of the network: the report and the
    files it prints as "top files". *)
Definition mainReport (searchGitHub : string -> option SearchResults)
    (getFileContent : string -> string -> Fetched) : Report.t * list Analysis :=
  let results := allResults (collect searchGitHub getFileContent SEARCH_QUERIES) in
  (generateReport results, topFiles results).

(** The items of the searches that answered, in the order the loop meets
    them. *)
Definition itemsMet (searchGitHub : string -> option SearchResults)
    (queries : list string) : list Item :=
  flat_map (fun query =>
              match searchGitHub query with
              | Some results => default [] (items results)
              | None => []
              end) queries.

(** The first occurrence of each key, in order. *)
Fixpoint firstByKey (seen : gset string) (l : list Item) : list Item :=
  match l with
  | [] => []
  | item :: rest =>
      if decide (fileKey item ∈ seen) then firstByKey seen rest
      else item :: firstByKey (seen ∪ {[ fileKey item ]}) rest
  end.

(** The keys of a list of items, as the set [seenFiles] holds them. *)
Definition keysOf (l : list Item) : gset string :=
  list_to_set (map fileKey l).

(** The analysis of an item whose download gave a non-empty text. *)
Definition analysisOf (getFileContent : string -> string -> Fetched)
    (item : Item) : option Analysis :=
  match getFileContent (full_name item) (path item) with
  | Resolved (Some content) =>
      if truthy content
      then Some (analyzeClaudeFile content (full_name item) (path item))
      else None
  | Resolved None => None
  | Rejected => None
  end.

(** The key under which [main] would have met an analysis. *)
Definition analysisKey (a : Analysis) : string :=
  an_repo a +:+ ":" +:+ an_filePath a.

(** No colon in [s]. *)
Fixpoint colonFree (s : string) : bool :=
  match s with
  | EmptyString => true
  | String c s' => negb (Ascii.eqb c ":") && colonFree s'
  end.

(** Number of line breaks in a text. *)
Fixpoint countLF (s : string) : nat :=
  match s with
  | EmptyString => 0
  | String c s' => (if Ascii.eqb c LF then 1 else 0) + countLF s'
  end.

(** A record as [analyzeClaudeFile] builds it: the two derived fields agree
    with the list of imports. *)
Definition wellFormed (a : Analysis) : Prop :=
  importCount a = length (atImports a) /\
  hasImports a = Nat.ltb 0 (importCount a).

(** Does the import of the directive of [line] succeed? *)
Definition importSucceeds (cwd : string) (importMap : gmap string string)
    (filePath line : string) : bool :=
  match matchAt line with
  | Some importPath =>
      match importLookup importMap (fullImportPath cwd filePath importPath) with
      | Some _ => true
      | None => false
      end
  | None => false
  end.

(** [s] is made of whitespace only. *)
Fixpoint allWs (s : string) : bool :=
  match s with
  | EmptyString => true
  | String c s' => is_ws c && allWs s'
  end.

(** The last code unit of [s] is whitespace. *)
Fixpoint endsWithWs (s : string) : bool :=
  match s with
  | EmptyString => false
  | String c EmptyString => is_ws c
  | String _ s' => endsWithWs s'
  end.

(** ** [runCompatibilityTests]: the names of the output files *)

(** [String.prototype.toLowerCase] on one code unit below 256: the letters
    A-Z and the accented capitals U+00C0-U+00DE (the multiplication sign
    U+00D7 apart) move by 32. *)
Definition lowerUnit (c : ascii) : ascii :=
  let n := N_of_ascii c in
  if (N.leb 65 n && N.leb n 90) ||
     (N.leb 192 n && N.leb n 222 && negb (N.eqb n 215))
  then ascii_of_N (n + 32) else c.

Fixpoint toLowerCase (s : string) : string :=
  match s with
  | EmptyString => ""
  | String c s' => String (lowerUnit c) (toLowerCase s')
  end.

(** [.replace(/\s+/g, '-')]: every maximal run of whitespace becomes one
    hyphen.  [inRun] is set while the scan is inside a run. *)
Fixpoint hyphenate (inRun : bool) (s : string) : string :=
  match s with
  | EmptyString => ""
  | String c s' =>
      if is_ws c then
        (if inRun then hyphenate true s' else String "-" (hyphenate true s'))
      else String c (hyphenate false s')
  end.

(** [testCase.name.toLowerCase().replace(/\s+/g, '-')] *)
Definition slug (name : string) : string := hyphenate false (toLowerCase name).

(** [`${slug}-claude.md`] and [`${slug}-gemini.md`], the last components of
    [claudePath] and [geminiPath]. *)
Definition claudeFileName (name : string) : string := slug name +:+ "-claude.md".
Definition geminiFileName (name : string) : string := slug name +:+ "-gemini.md".

(** No capital letter A-Z in [s]. *)
Fixpoint noAsciiCapital (s : string) : bool :=
  match s with
  | EmptyString => true
  | String c s' =>
      negb (N.leb 65 (N_of_ascii c) && N.leb (N_of_ascii c) 90) &&
      noAsciiCapital s'
  end.

(** ** [scripts/rewrite_msg.sh]: the first line of a message that is not in
    conventional form (lines 38-69), and the cut to 60 characters

    Strings are sequences of bytes, as the tools of the script see them in
    the C locale; for ASCII messages every locale agrees. *)
Module RewriteMsg.

(** [echo "$first_line"] prints nothing when the line is itself an option of
    [echo]: a hyphen followed by one or more of [n], [e], [E]. *)
Fixpoint echoFlags (s : string) : bool :=
  match s with
  | EmptyString => true
  | String c s' =>
      (Ascii.eqb c "n" || Ascii.eqb c "e" || Ascii.eqb c "E") && echoFlags s'
  end.

Definition isEchoOption (s : string) : bool :=
  match s with
  | String c (String d s') => Ascii.eqb c "-" && echoFlags (String d s')
  | _ => false
  end.

Definition echo (s : string) : string :=
  if isEchoOption s then "" else s.

(** [tr '[:upper:]' '[:lower:]'] on one byte. *)
Definition lowerByte (c : ascii) : ascii :=
  let n := N_of_ascii c in
  if N.leb 65 n && N.leb n 90 then ascii_of_N (n + 32) else c.

Fixpoint tr_lower (s : string) : string :=
  match s with
  | EmptyString => ""
  | String c s' => String (lowerByte c) (tr_lower s')
  end.

(** [echo "$first_line" | grep -qi "a\|b\|..."]: one of the words occurs in
    the line, letter case apart (the words are in lower case). *)
Definition grep_qi (words : list string) (line : string) : bool :=
  existsb (fun w => occursIn w (tr_lower (echo line))) words.

(** The chain of [if ... elif ... else] that infers the type. *)
Definition inferType (first_line : string) : string :=
  if grep_qi ["fix"; "bug"; "error"; "issue"] first_line then "fix"
  else if grep_qi ["add"; "new"; "feature"; "implement"] first_line then "feat"
  else if grep_qi ["doc"; "readme"; "comment"] first_line then "docs"
  else if grep_qi ["test"; "spec"] first_line then "test"
  else if grep_qi ["refactor"; "clean"; "improve"] first_line then "refactor"
  else if grep_qi ["style"; "format"; "lint"] first_line then "style"
  else if grep_qi ["ci"; "build"; "deploy"; "workflow"] first_line then "ci"
  else if grep_qi ["perf"; "performance"; "optimize"] first_line then "perf"
  else if grep_qi ["chore"; "update"; "bump"; "version"] first_line then "chore"
  else "chore".

(** [${s:0:n}] *)
Fixpoint substr0 (n : nat) (s : string) : string :=
  match n, s with
  | S n', String c s' => String c (substr0 n' s')
  | _, _ => ""
  end.

(** [if [ ${#new_first_line} -gt 60 ]; then
       new_first_line="${new_first_line:0:57}..."; fi] *)
Definition truncate (new_first_line : string) : string :=
  if Nat.ltb 60 (String.length new_first_line)
  then substr0 57 new_first_line +:+ "..."
  else new_first_line.

(** The [else] branch: [new_first_line] for a first line that is not in
    conventional form. *)
Definition rewriteUnconventional (first_line : string) : string :=
  truncate (inferType first_line +:+ ": " +:+ tr_lower (echo first_line)).

(** The types that the chain can give. *)
Definition inferredTypes : list string :=
  ["fix"; "feat"; "docs"; "test"; "refactor"; "style"; "ci"; "perf"; "chore"].

End RewriteMsg.

(** * Properties *)

(** ** Arrays built by [push] *)
Section Push.
Context {A B : Type}.

Lemma fold_left_push (f : A -> list B) (l : list A) (init : list B) :
  fold_left (fun acc x => acc ++ f x) l init = init ++ flat_map f l.
Proof.
  revert init. induction l as [|x l IH]; intros init; simpl.
  - by rewrite app_nil_r.
  - by rewrite IH, app_assoc.
Qed.

End Push.

Lemma processedLinesOf_lines cwd importMap filePath content :
  processedLinesOf cwd importMap filePath content =
  flat_map (processLine cwd importMap filePath) (split LF content).
Proof. unfold processedLinesOf. by rewrite fold_left_push. Qed.

Lemma claudeStep_aborted files l : fold_left (claudeStep files) l None = None.
Proof. induction l; simpl; auto. Qed.

Lemma geminiStep_aborted cwd files im l :
  fold_left (geminiStep cwd files im) l None = None.
Proof. induction l; simpl; auto. Qed.

Lemma claude_loop files processedFiles out :
  Forall (fun p => is_Some (files !! p)) processedFiles ->
  fold_left (claudeStep files) processedFiles (Some out) =
  Some (out ++ flat_map (claudeBlock files) processedFiles).
Proof.
  intros Hall. revert out.
  induction Hall as [|p l [c Hc] _ IH]; intros out; simpl.
  - by rewrite app_nil_r.
  - rewrite Hc, IH. unfold claudeBlock at 2, textOf. rewrite Hc. simpl.
    by rewrite <- app_assoc.
Qed.

Lemma gemini_loop cwd files im processedFiles out :
  Forall (fun p => is_Some (files !! p)) processedFiles ->
  fold_left (geminiStep cwd files im) processedFiles (Some out) =
  Some (out ++ map (geminiSection cwd files im) processedFiles).
Proof.
  intros Hall. revert out.
  induction Hall as [|p l [c Hc] _ IH]; intros out; simpl.
  - by rewrite app_nil_r.
  - rewrite Hc, IH, processedLinesOf_lines. unfold geminiSection at 2, textOf.
    rewrite Hc. simpl. by rewrite <- app_assoc.
Qed.

Lemma claudeOutputArray_present files processedFiles :
  Forall (fun p => is_Some (files !! p)) processedFiles ->
  claudeOutputArray files processedFiles =
  Some (flat_map (claudeBlock files) processedFiles).
Proof. intros H. unfold claudeOutputArray. by rewrite claude_loop. Qed.

Lemma geminiOutputArray_present cwd files im processedFiles :
  Forall (fun p => is_Some (files !! p)) processedFiles ->
  geminiOutputArray cwd files processedFiles im =
  Some (map (geminiSection cwd files im) processedFiles).
Proof. intros H. unfold geminiOutputArray. by rewrite gemini_loop. Qed.

(** A listed file that is not in [files] makes both loops throw. *)
Lemma claude_loop_missing files processedFiles out :
  claudeOutputArray files processedFiles = Some out ->
  Forall (fun p => is_Some (files !! p)) processedFiles.
Proof.
  unfold claudeOutputArray. generalize (@nil string) as acc.
  revert out. induction processedFiles as [|p l IH]; intros out acc H; simpl in *.
  - constructor.
  - destruct (files !! p) as [c|] eqn:Hc.
    + constructor; [by eexists | by eapply IH].
    + by rewrite claudeStep_aborted in H.
Qed.

(** ** [split] and [join] *)

Lemma split_nonempty sep s : split sep s <> [].
Proof.
  destruct s as [|c s]; simpl; [done|].
  destruct (Ascii.eqb c sep); [done|]. by destruct (split sep s).
Qed.

Lemma join_cons_char sep c w ws :
  join sep (String c w :: ws) = String c (join sep (w :: ws)).
Proof. by destruct ws. Qed.

Lemma join_split s : join NL (split LF s) = s.
Proof.
  induction s as [|c s IH]; simpl; [done|].
  destruct (Ascii.eqb_spec c LF) as [->|Hne].
  - pose proof (split_nonempty LF s) as Hs.
    destruct (split LF s) as [|w ws] eqn:E; [done|].
    simpl in *. by rewrite IH.
  - pose proof (split_nonempty LF s) as Hs.
    destruct (split LF s) as [|w ws] eqn:E; [done|].
    rewrite join_cons_char. by rewrite IH.
Qed.

Lemma flat_map_singleton {A} (f : A -> list A) (l : list A) :
  Forall (fun x => f x = [x]) l -> flat_map f l = l.
Proof. induction 1 as [|x l Hx _ IH]; simpl; [done|]. by rewrite Hx, IH. Qed.

(** ** The pattern [/@([^\s]+)/] *)

Lemma takeNonWs_wsFree s : wsFree (takeNonWs s) = true.
Proof.
  induction s as [|c s IH]; simpl; [done|].
  destruct (is_ws c) eqn:E; simpl; [done|]. by rewrite E, IH.
Qed.

(** The capture group is a prefix of what follows the [@], and it is
    followed by the end of the line or by whitespace. *)
Lemma takeNonWs_prefix s :
  exists post, s = takeNonWs s +:+ post /\ tokenEnd post = true.
Proof.
  induction s as [|c s (post & IH & Hpost)]; simpl.
  - by exists "".
  - destruct (is_ws c) eqn:E.
    + exists (String c s). by simpl.
    + exists post. split; [|done]. simpl. by rewrite <- IH.
Qed.

Lemma takeNonWs_token p post :
  wsFree p = true -> tokenEnd post = true -> takeNonWs (p +:+ post) = p.
Proof.
  intros Hp Hpost. induction p as [|c p IH]; simpl in *.
  - destruct post as [|d post]; simpl in *; [done|]. by rewrite Hpost.
  - apply andb_prop in Hp as [Hc Hp]. apply negb_true_iff in Hc.
    by rewrite Hc, IH.
Qed.

Lemma takeNonWs_empty s : takeNonWs s = "" -> tokenEnd s = true.
Proof. destruct s as [|c s]; simpl; [done|]. by destruct (is_ws c). Qed.

Lemma takeNonWs_app_ws s t : s <> "" -> tokenEnd s = true -> takeNonWs (s +:+ t) = "".
Proof. destruct s as [|c s]; simpl; [done|]. by intros _ ->. Qed.

(** A match decomposes the line: text without a match, the [@], the capture
    group, and a remainder the pattern never looks at. *)
Lemma matchAt_Some line p :
  matchAt line = Some p ->
  exists pre post,
    line = pre +:+ "@" +:+ p +:+ post /\ matchAt (pre +:+ "@") = None /\
    p <> "" /\ wsFree p = true /\ tokenEnd post = true.
Proof.
  induction line as [|c line IH]; simpl; [done|].
  destruct (Ascii.eqb_spec c "@") as [->|Hne].
  - destruct (takeNonWs line) as [|d q] eqn:E.
    + intros (pre & post & -> & Hpre & Hrest)%IH.
      exists (String "@" pre), post. split; [done|]. split; [|done].
      simpl. destruct pre as [|e pre].
      * simpl in E. by destruct (is_ws "@") eqn:?.
      * simpl in E |- *. destruct (is_ws e) eqn:He; [|done]. exact Hpre.
    + intros [= <-]. destruct (takeNonWs_prefix line) as (post & Hline & Hpost).
      exists "", post. rewrite E in Hline. split; [by rewrite Hline|].
      split; [done|]. split; [done|]. split; [|done].
      rewrite <- E. apply takeNonWs_wsFree.
  - intros (pre & post & -> & Hpre & Hrest)%IH.
    exists (String c pre), post. split; [done|]. split; [|done].
    simpl. by destruct (Ascii.eqb_spec c "@").
Qed.

(** Conversely, the first [@] that starts a token decides the match,
    whatever comes after the token. *)
Lemma matchAt_first pre p post :
  matchAt (pre +:+ "@") = None -> p <> "" -> wsFree p = true ->
  tokenEnd post = true ->
  matchAt (pre +:+ "@" +:+ p +:+ post) = Some p.
Proof.
  intros Hpre Hp Hws Hpost. induction pre as [|c pre IH]; simpl in *.
  - rewrite takeNonWs_token by done. by destruct p.
  - destruct (Ascii.eqb_spec c "@") as [->|Hne]; [|by apply IH].
    destruct (takeNonWs (pre +:+ "@")) as [|d q] eqn:E; [|done].
    destruct pre as [|e pre]; [by simpl in E|].
    simpl in E |- *. destruct (is_ws e) eqn:He; [|done]. by apply IH.
Qed.

(** ** Markers determine their path *)

Lemma length_append s t :
  String.length (s +:+ t) = String.length s + String.length t.
Proof. induction s as [|c s IH]; simpl; [done|]. by rewrite IH. Qed.

Lemma append_cancel_r p q s : p +:+ s = q +:+ s -> p = q.
Proof.
  revert q. induction p as [|c p IH]; intros [|d q] H; simpl in *.
  - done.
  - apply (f_equal String.length) in H. simpl in H.
    rewrite length_append in H. lia.
  - apply (f_equal String.length) in H. simpl in H.
    rewrite length_append in H. lia.
  - injection H as -> H. f_equal. by apply IH.
Qed.

Lemma fileMarker_inj p q : fileMarker p = fileMarker q -> p = q.
Proof.
  unfold fileMarker. intros H%(inj (String.append _)). by eapply append_cancel_r.
Qed.

(** ** The scanning loop of [analyzeClaudeFile] *)

Lemma scanLines_length i lines acc :
  length (scanLines i lines acc) =
  length acc + length (filter (fun l => hasDirective l = true) lines).
Proof.
  revert i acc. induction lines as [|l lines IH]; intros i acc; simpl.
  - lia.
  - destruct (matchAt l) as [p|] eqn:E.
    + rewrite filter_cons_True by (unfold hasDirective; by rewrite E).
      rewrite IH, length_app. simpl. lia.
    + rewrite filter_cons_False by (unfold hasDirective; by rewrite E).
      by rewrite IH.
Qed.



(** ** [path.resolve] and the working directory *)

Lemma dirname_absolute filePath :
  NodePath.isAbsolute filePath = true ->
  NodePath.isAbsolute (NodePath.dirname filePath) = true.
Proof.
  destruct filePath as [|c rest]; simpl; [done|]. intros Hc.
  unfold NodePath.dirname. rewrite Hc. simpl.
  destruct (NodePath.skip _ _) as [|x before]; [done|].
  by destruct (length (x :: before) =? 1)%nat.
Qed.

(** With an absolute directory, [process.cwd()] is never consulted. *)
Lemma resolve_absolute_dir cwd1 cwd2 dir importPath :
  NodePath.isAbsolute dir = true ->
  NodePath.resolve cwd1 dir importPath = NodePath.resolve cwd2 dir importPath.
Proof.
  intros Hdir. unfold NodePath.resolve. simpl.
  destruct dir as [|d dir]; [done|]. simpl in Hdir.
  destruct importPath as [|i importPath]; simpl.
  - by rewrite Hdir.
  - destruct (NodePath.is_slash i); simpl; [done|]. by rewrite Hdir.
Qed.

Lemma processLine_absolute cwd1 cwd2 importMap filePath line :
  NodePath.isAbsolute filePath = true ->
  processLine cwd1 importMap filePath line = processLine cwd2 importMap filePath line.
Proof.
  intros Habs. unfold processLine, fullImportPath.
  destruct (matchAt line) as [p|]; [|done].
  by rewrite (resolve_absolute_dir cwd1 cwd2) by by apply dirname_absolute.
Qed.

(** ** Boundary blocks of the flat output *)

Lemma blocksOf_claude files processedFiles :
  blocksOf (flat_map (claudeBlock files) processedFiles) =
  map (fun p => (fileMarker p, trim (textOf files p), endOfFileMarker p))
      processedFiles.
Proof. induction processedFiles as [|p l IH]; simpl; [done|]. by rewrite IH. Qed.

Lemma countBlocks_claude files processedFiles filePath :
  countBlocks filePath (flat_map (claudeBlock files) processedFiles) =
  countListed filePath processedFiles.
Proof.
  unfold countBlocks, countListed. rewrite blocksOf_claude.
  induction processedFiles as [|p l IH]; simpl; [done|].
  destruct (decide (p = filePath)) as [->|Hne].
  - rewrite !filter_cons_True by done. simpl. by rewrite IH.
  - rewrite !filter_cons_False; [done|done|].
    simpl. intros H%fileMarker_inj. done.
Qed.

(** ** The model against the repository's fixture *)

(** [generateClaudeStyleOutput] on the test case "Nested Imports" gives the
    text stored in [claude-compatibility-test/nested-imports-claude.md]. *)
Example nested_imports_fixture :
  generateClaudeStyleOutput TEST_FILES
    ["main.md"; "components/header.md"; "shared/title.md"; "shared/config.md"]
  = Some "--- File: main.md ---

# Main Document

This is the main content.

@./components/header.md

More content here.

@./components/footer.md

@./shared/config.md

--- End of File: main.md ---

--- File: components/header.md ---

# Header Component

@./shared/title.md

This is the header content.

--- End of File: components/header.md ---

--- File: shared/title.md ---

# Project Title

This is the shared title content.

--- End of File: shared/title.md ---

--- File: shared/config.md ---

# Configuration

This is the configuration content.

--- End of File: shared/config.md ---".
Proof. vm_compute. reflexivity. Qed.

(** ** Hierarchical mode: what replaces a directive *)

(** A line is rendered on its own: the lines before and after it do not
    change what it becomes, nor it them. *)
Lemma processedLinesOf_at cwd importMap filePath content before line after :
  split LF content = before ++ line :: after ->
  processedLinesOf cwd importMap filePath content =
  flat_map (processLine cwd importMap filePath) before ++
  processLine cwd importMap filePath line ++
  flat_map (processLine cwd importMap filePath) after.
Proof.
  intros Hsplit. rewrite processedLinesOf_lines, Hsplit.
  by rewrite flat_map_app.
Qed.

Lemma processLine_imported cwd importMap filePath line importPath text :
  matchAt line = Some importPath ->
  importLookup importMap (fullImportPath cwd filePath importPath) = Some text ->
  processLine cwd importMap filePath line =
  [importedFromMarker importPath; trim text; endOfImportMarker importPath].
Proof. intros Hm Hl. unfold processLine. by rewrite Hm, Hl. Qed.

Lemma processLine_failed cwd importMap filePath line importPath :
  matchAt line = Some importPath ->
  importLookup importMap (fullImportPath cwd filePath importPath) = None ->
  processLine cwd importMap filePath line = [importFailedMarker importPath].
Proof. intros Hm Hl. unfold processLine. by rewrite Hm, Hl. Qed.

Lemma processLine_literal cwd importMap filePath line :
  matchAt line = None -> processLine cwd importMap filePath line = [line].
Proof. intros Hm. unfold processLine. by rewrite Hm. Qed.

(** Claim C1, as stated, does not hold: Rendering [main] of the nested scenario does
    not give the recursively rendered text: the directive of [header] is
    still there as written, and the text of [title] is nowhere. *)
Lemma hierarchical_not_recursive_counterexample :
  generateGeminiTreeOutput "/project" NESTED_FILES ["/project/main.md"] NESTED_FILES
    = Some "# Main

<!-- Imported from: ./header.md -->
# Header

@./title.md
<!-- End of import from: ./header.md -->

Body.

<!-- Imported from: ./footer.md -->
# Footer
<!-- End of import from: ./footer.md -->
" /\
  Spec.renderHierarchical 3 "/project" NESTED_FILES "/project/main.md"
    (textOf NESTED_FILES "/project/main.md")
    = "# Main

<!-- Imported from: ./header.md -->
# Header

<!-- Imported from: ./title.md -->
# Title
<!-- End of import from: ./title.md -->
<!-- End of import from: ./header.md -->

Body.

<!-- Imported from: ./footer.md -->
# Footer
<!-- End of import from: ./footer.md -->
" /\
  generateGeminiTreeOutput "/project" NESTED_FILES ["/project/main.md"] NESTED_FILES
    <> Some (Spec.renderHierarchical 3 "/project" NESTED_FILES "/project/main.md"
               (textOf NESTED_FILES "/project/main.md")).
Proof.
  split; [vm_compute; reflexivity|]. split; [vm_compute; reflexivity|].
  by vm_compute.
Qed.

(** Claim C1, amended: In hierarchical mode a line whose first directive
    resolves to a non-empty entry of the import map is replaced in place, as
    a whole line, by the begin marker, the entry's text trimmed and otherwise
    as it is (one array element: the directives that text contains are not
    looked at), and the end marker; the other lines are rendered
    independently. *)
Theorem import_spliced_single_level
    cwd importMap filePath content before line after importPath text :
  split LF content = before ++ line :: after ->
  matchAt line = Some importPath ->
  importLookup importMap (fullImportPath cwd filePath importPath) = Some text ->
  processedLinesOf cwd importMap filePath content =
    flat_map (processLine cwd importMap filePath) before ++
    [importedFromMarker importPath; trim text; endOfImportMarker importPath] ++
    flat_map (processLine cwd importMap filePath) after.
Proof.
  intros Hsplit Hm Hl.
  rewrite (processedLinesOf_at _ _ _ _ _ _ _ Hsplit).
  by rewrite (processLine_imported _ _ _ _ _ _ Hm Hl).
Qed.

Lemma import_spliced_single_level_witness :
  processedLinesOf "/project" NESTED_FILES "/project/main.md"
    (textOf NESTED_FILES "/project/main.md") =
    flat_map (processLine "/project" NESTED_FILES "/project/main.md") ["# Main"; ""] ++
    [importedFromMarker "./header.md";
     trim (textOf NESTED_FILES "/project/header.md");
     endOfImportMarker "./header.md"] ++
    flat_map (processLine "/project" NESTED_FILES "/project/main.md")
      [""; "Body."; ""; "@./footer.md"; ""].
Proof.
  apply (import_spliced_single_level "/project" NESTED_FILES "/project/main.md"
           (textOf NESTED_FILES "/project/main.md")
           ["# Main"; ""] "@./header.md" [""; "Body."; ""; "@./footer.md"; ""]
           "./header.md" (textOf NESTED_FILES "/project/header.md"));
    vm_compute; reflexivity.
Defined.

(** ** Flat mode: one block per listed file *)

(** Claim C2, as stated, does not hold: [shared/config.md] is referred to twice by
    [duplicate-test.md].  When the list of processed files carries it once
    per encounter, the second encounter emits markers and content again; when
    the list leaves it out, it has no block at all. *)
Lemma flat_no_dedup_counterexample :
  claudeOutputArray TEST_FILES
    ["duplicate-test.md"; "shared/config.md"; "shared/config.md"]
    = Some [ "--- File: duplicate-test.md ---"; trim duplicate_test_md;
             "--- End of File: duplicate-test.md ---";
             "--- File: shared/config.md ---"; trim config_md;
             "--- End of File: shared/config.md ---";
             "--- File: shared/config.md ---"; trim config_md;
             "--- End of File: shared/config.md ---" ] /\
  countBlocks "shared/config.md"
    (default [] (claudeOutputArray TEST_FILES
       ["duplicate-test.md"; "shared/config.md"; "shared/config.md"])) = 2 /\
  countBlocks "shared/config.md"
    (default [] (claudeOutputArray TEST_FILES ["duplicate-test.md"])) = 0.
Proof. repeat split; vm_compute; reflexivity. Qed.

(** Claim C2, amended: In flat mode the output holds one boundary block per
    entry of the list of processed files: a document has as many blocks as
    the list names it, so exactly one when it is listed once, however many
    directives refer to it (directives are not followed and emit nothing);
    removing duplicates is left to whoever builds the list. *)
Theorem flat_blocks_counted_by_list files processedFiles output filePath :
  claudeOutputArray files processedFiles = Some output ->
  countBlocks filePath output = countListed filePath processedFiles /\
  generateClaudeStyleOutput files processedFiles = Some (join NLNL output).
Proof.
  intros Hout. pose proof (claude_loop_missing _ _ _ Hout) as Hall.
  rewrite (claudeOutputArray_present _ _ Hall) in Hout. injection Hout as <-.
  split; [apply countBlocks_claude|].
  unfold generateClaudeStyleOutput. by rewrite (claudeOutputArray_present _ _ Hall).
Qed.

(** The test case "Duplicate Imports": one block for the file referred to
    twice. *)
Lemma flat_blocks_counted_by_list_witness :
  countBlocks "shared/config.md"
    (flat_map (claudeBlock TEST_FILES) ["duplicate-test.md"; "shared/config.md"]) = 1.
Proof.
  pose proof (flat_blocks_counted_by_list TEST_FILES
                ["duplicate-test.md"; "shared/config.md"]
                (flat_map (claudeBlock TEST_FILES)
                   ["duplicate-test.md"; "shared/config.md"])
                "shared/config.md" eq_refl) as [H _].
  exact H.
Defined.

(** Claim C5, as stated, does not hold: The blocks follow the list that is passed in,
    not the traversal of the references: with the files of the nested
    scenario listed as [main, footer, header, title], [footer] comes second,
    while the first-encounter order is [main, header, title, footer]. *)
Lemma flat_order_not_first_encounter_counterexample :
  Spec.firstEncounter 4 "/project" NESTED_FILES [] "/project/main.md"
    = ["/project/main.md"; "/project/header.md"; "/project/title.md";
       "/project/footer.md"] /\
  blockMarkers
    (default [] (claudeOutputArray NESTED_FILES
       ["/project/main.md"; "/project/footer.md"; "/project/header.md";
        "/project/title.md"]))
    = [ "--- File: /project/main.md ---"; "--- File: /project/footer.md ---";
        "--- File: /project/header.md ---"; "--- File: /project/title.md ---" ] /\
  blockMarkers
    (default [] (claudeOutputArray NESTED_FILES
       ["/project/main.md"; "/project/footer.md"; "/project/header.md";
        "/project/title.md"]))
    <> map fileMarker
         (Spec.firstEncounter 4 "/project" NESTED_FILES [] "/project/main.md").
Proof.
  split; [vm_compute; reflexivity|]. split; [vm_compute; reflexivity|].
  by vm_compute.
Qed.

(** Claim C5, amended: In flat mode the boundary blocks are emitted in the order
    of the list of processed files, first entry first: when the list is
    [main, header, title, footer], the block order is
    [main, header, title, footer]. *)
Theorem flat_blocks_in_list_order files processedFiles output :
  claudeOutputArray files processedFiles = Some output ->
  blockMarkers output = map fileMarker processedFiles.
Proof.
  intros Hout. pose proof (claude_loop_missing _ _ _ Hout) as Hall.
  rewrite (claudeOutputArray_present _ _ Hall) in Hout. injection Hout as <-.
  unfold blockMarkers. rewrite blocksOf_claude, map_map. done.
Qed.

Lemma flat_blocks_in_list_order_witness :
  blockMarkers
    (flat_map (claudeBlock NESTED_FILES)
       ["/project/main.md"; "/project/header.md"; "/project/title.md";
        "/project/footer.md"])
  = map fileMarker
      ["/project/main.md"; "/project/header.md"; "/project/title.md";
       "/project/footer.md"].
Proof.
  exact (flat_blocks_in_list_order NESTED_FILES
           ["/project/main.md"; "/project/header.md"; "/project/title.md";
            "/project/footer.md"] _ eq_refl).
Defined.

(** ** Documents without directives *)

Lemma no_directive_lines content repo filePath :
  importCount (analyzeClaudeFile content repo filePath) = 0 ->
  Forall (fun line => matchAt line = None) (split LF content).
Proof.
  simpl. rewrite scanLines_length. simpl.
  induction (split LF content) as [|l lines IH]; intros H; [constructor|].
  destruct (matchAt l) as [p|] eqn:E.
  - rewrite filter_cons_True in H by (unfold hasDirective; by rewrite E). done.
  - rewrite filter_cons_False in H by (unfold hasDirective; by rewrite E).
    constructor; auto.
Qed.

(** Claim C7, as stated, does not hold: A document without directives that begins with
    an indented line: in flat mode the content between the markers has lost
    the indentation and the final line break; in hierarchical mode the output
    is the source text itself, with no marker around it. *)
Lemma zero_directive_not_identical_counterexample :
  importCount (analyzeClaudeFile INDENTED_md "" "INSTALL.md") = 0 /\
  claudeOutputArray {[ "INSTALL.md" := INDENTED_md ]} ["INSTALL.md"]
    = Some [ "--- File: INSTALL.md ---";
             "make install

Run the line above.";
             "--- End of File: INSTALL.md ---" ] /\
  "make install

Run the line above." <> INDENTED_md /\
  occursIn INDENTED_md
    (default "" (generateClaudeStyleOutput {[ "INSTALL.md" := INDENTED_md ]}
                   ["INSTALL.md"])) = false /\
  generateGeminiTreeOutput "/w" {[ "INSTALL.md" := INDENTED_md ]} ["INSTALL.md"] ∅
    = Some INDENTED_md.
Proof.
  split; [vm_compute; reflexivity|]. split; [vm_compute; reflexivity|].
  split; [by vm_compute|]. split; vm_compute; reflexivity.
Qed.

(** Claim C7, amended: For a document without directives, flat mode yields
    exactly one marker-wrapped block whose inner content is the source text
    with its leading and trailing whitespace removed, and hierarchical mode
    yields the source text itself, byte for byte, with no marker. *)
Theorem zero_directive_document cwd files importMap filePath content repo :
  files !! filePath = Some content ->
  importCount (analyzeClaudeFile content repo filePath) = 0 ->
  claudeOutputArray files [filePath] =
    Some [fileMarker filePath; trim content; endOfFileMarker filePath] /\
  generateClaudeStyleOutput files [filePath] =
    Some (fileMarker filePath +:+ NLNL +:+ trim content +:+ NLNL +:+
          endOfFileMarker filePath) /\
  generateGeminiTreeOutput cwd files [filePath] importMap = Some content.
Proof.
  intros Hfile Hzero.
  assert (Hc : claudeOutputArray files [filePath] =
               Some [fileMarker filePath; trim content; endOfFileMarker filePath]).
  { unfold claudeOutputArray. simpl. by rewrite Hfile. }
  split; [exact Hc|]. split.
  - unfold generateClaudeStyleOutput. by rewrite Hc.
  - unfold generateGeminiTreeOutput, geminiOutputArray. simpl. rewrite Hfile. simpl.
    rewrite processedLinesOf_lines, flat_map_singleton, join_split; [done|].
    eapply Forall_impl; [by eapply no_directive_lines|].
    intros line Hline. by apply processLine_literal.
Qed.

Lemma zero_directive_document_witness :
  claudeOutputArray TEST_FILES ["shared/config.md"] =
    Some [fileMarker "shared/config.md"; trim config_md;
          endOfFileMarker "shared/config.md"] /\
  generateClaudeStyleOutput TEST_FILES ["shared/config.md"] =
    Some (fileMarker "shared/config.md" +:+ NLNL +:+ trim config_md +:+ NLNL +:+
          endOfFileMarker "shared/config.md") /\
  generateGeminiTreeOutput "/w" TEST_FILES ["shared/config.md"] TEST_FILES
    = Some config_md.
Proof.
  apply (zero_directive_document "/w" TEST_FILES TEST_FILES "shared/config.md"
           config_md ""); vm_compute; reflexivity.
Defined.

(** ** Mutual references *)

Lemma generate_total cwd files importMap processedFiles :
  Forall (fun p => is_Some (files !! p)) processedFiles ->
  generateClaudeStyleOutput files processedFiles =
    Some (join NLNL (flat_map (claudeBlock files) processedFiles)) /\
  generateGeminiTreeOutput cwd files processedFiles importMap =
    Some (join NLNL (map (geminiSection cwd files importMap) processedFiles)).
Proof.
  intros Hall. unfold generateClaudeStyleOutput, generateGeminiTreeOutput.
  by rewrite claudeOutputArray_present, geminiOutputArray_present.
Qed.

(** Claim C3, as stated, does not hold: [circular-a.md] and [circular-b.md] refer to
    each other.  The directive of [circular-b.md] that closes the cycle is
    replaced by the text of [circular-a.md] between import markers, not by a
    diagnostic marker, and the output of the run reports no cycle. *)
Lemma cycle_edge_expanded_counterexample :
  fullImportPath "/w" "circular-a.md" "./circular-b.md" = "/w/circular-b.md" /\
  fullImportPath "/w" "circular-b.md" "./circular-a.md" = "/w/circular-a.md" /\
  processLine "/w" CIRCULAR_IMPORTS "circular-b.md" "@./circular-a.md"
    = [ "<!-- Imported from: ./circular-a.md -->";
        "# Circular A

@./circular-b.md

Content A";
        "<!-- End of import from: ./circular-a.md -->" ] /\
  generateGeminiTreeOutput "/w" TEST_FILES ["circular-a.md"; "circular-b.md"]
    CIRCULAR_IMPORTS
    = Some "# Circular A

<!-- Imported from: ./circular-b.md -->
# Circular B

@./circular-a.md

Content B
<!-- End of import from: ./circular-b.md -->

Content A


# Circular B

<!-- Imported from: ./circular-a.md -->
# Circular A

@./circular-b.md

Content A
<!-- End of import from: ./circular-a.md -->

Content B
" /\
  occursIn "Import failed"
    (default "" (generateGeminiTreeOutput "/w" TEST_FILES
                   ["circular-a.md"; "circular-b.md"] CIRCULAR_IMPORTS)) = false.
Proof. repeat split; vm_compute; reflexivity. Qed.

(** Claim C3, amended: Rendering two documents that refer to each other returns
    in both modes; in hierarchical mode the directive on each of the two
    edges is replaced, like any other directive, by the import markers
    around the other document's text, trimmed and not expanded (its
    directive back is left as written); no cycle is detected or reported. *)
Theorem mutual_references_render_one_level
    cwd files importMap a b textA textB lineA lineB toB toA :
  files !! a = Some textA -> files !! b = Some textB ->
  lineA ∈ split LF textA -> matchAt lineA = Some toB ->
  importLookup importMap (fullImportPath cwd a toB) = Some textB ->
  lineB ∈ split LF textB -> matchAt lineB = Some toA ->
  importLookup importMap (fullImportPath cwd b toA) = Some textA ->
  generateClaudeStyleOutput files [a; b] =
    Some (join NLNL (claudeBlock files a ++ claudeBlock files b)) /\
  generateGeminiTreeOutput cwd files [a; b] importMap =
    Some (join NLNL [geminiSection cwd files importMap a;
                     geminiSection cwd files importMap b]) /\
  processLine cwd importMap a lineA =
    [importedFromMarker toB; trim textB; endOfImportMarker toB] /\
  processLine cwd importMap b lineB =
    [importedFromMarker toA; trim textA; endOfImportMarker toA].
Proof.
  intros Ha Hb _ HmA HlA _ HmB HlB.
  assert (Hall : Forall (fun p => is_Some (files !! p)) [a; b]).
  { repeat constructor; by eexists. }
  destruct (generate_total cwd files importMap [a; b] Hall) as [Hc Hg].
  split; [by rewrite Hc|]. split; [exact Hg|].
  split; by apply processLine_imported.
Qed.

Lemma mutual_references_render_one_level_witness :
  generateClaudeStyleOutput TEST_FILES ["circular-a.md"; "circular-b.md"] =
    Some (join NLNL (claudeBlock TEST_FILES "circular-a.md" ++
                     claudeBlock TEST_FILES "circular-b.md")) /\
  generateGeminiTreeOutput "/w" TEST_FILES ["circular-a.md"; "circular-b.md"]
    CIRCULAR_IMPORTS =
    Some (join NLNL [geminiSection "/w" TEST_FILES CIRCULAR_IMPORTS "circular-a.md";
                     geminiSection "/w" TEST_FILES CIRCULAR_IMPORTS "circular-b.md"]) /\
  processLine "/w" CIRCULAR_IMPORTS "circular-a.md" "@./circular-b.md" =
    [importedFromMarker "./circular-b.md"; trim circular_b_md;
     endOfImportMarker "./circular-b.md"] /\
  processLine "/w" CIRCULAR_IMPORTS "circular-b.md" "@./circular-a.md" =
    [importedFromMarker "./circular-a.md"; trim circular_a_md;
     endOfImportMarker "./circular-a.md"].
Proof.
  apply (mutual_references_render_one_level "/w" TEST_FILES CIRCULAR_IMPORTS
           "circular-a.md" "circular-b.md" circular_a_md circular_b_md
           "@./circular-b.md" "@./circular-a.md" "./circular-b.md" "./circular-a.md");
    try (vm_compute; reflexivity);
    vm_compute; repeat first [apply list_elem_of_here | apply list_elem_of_further].
Defined.

(** ** Code regions *)




(** ** Failed imports *)

(** Claim C6, as stated, does not hold: A directive that leaves the project
    ([/srv/project]) through [..] is not treated as a failure: the file it
    reaches is imported when the import map holds it. *)
Lemma traversal_imported_counterexample :
  fullImportPath "/srv/project" "docs/guide.md" "../../../etc/passwd"
    = "/etc/passwd" /\
  Spec.withinRoot "/srv/project"
    (fullImportPath "/srv/project" "docs/guide.md" "../../../etc/passwd") = false /\
  generateGeminiTreeOutput "/srv/project" {[ "docs/guide.md" := GUIDE_md ]}
    ["docs/guide.md"] OUTSIDE_IMPORTS
    = Some "<!-- Imported from: ../../../etc/passwd -->
root:x:0:0:root:/root:/bin/sh
<!-- End of import from: ../../../etc/passwd -->".
Proof. repeat split; vm_compute; reflexivity. Qed.

(** Claim C6, amended: The one failure the code knows is an import map without
    a non-empty entry for the resolved path (a missing file; path traversal,
    URL schemes, binary content and cycles are not looked for).  On such a
    failure the line of the directive is replaced by the inline marker
    [<!-- Import failed: {rawPath} -->], the other lines of the file and the
    other files are rendered as usual, and the run returns its output. *)
Theorem failed_import_marked_and_skipped
    cwd files importMap processedFiles filePath content before line after importPath :
  Forall (fun p => is_Some (files !! p)) processedFiles ->
  files !! filePath = Some content ->
  split LF content = before ++ line :: after ->
  matchAt line = Some importPath ->
  importLookup importMap (fullImportPath cwd filePath importPath) = None ->
  generateGeminiTreeOutput cwd files processedFiles importMap =
    Some (join NLNL (map (geminiSection cwd files importMap) processedFiles)) /\
  geminiSection cwd files importMap filePath =
    join NL (flat_map (processLine cwd importMap filePath) before ++
             ["<!-- Import failed: " +:+ importPath +:+ " -->"] ++
             flat_map (processLine cwd importMap filePath) after).
Proof.
  intros Hall Hfile Hsplit Hm Hl. split.
  - by apply generate_total.
  - unfold geminiSection, textOf. rewrite Hfile. simpl.
    rewrite Hsplit, flat_map_app. simpl.
    by rewrite (processLine_failed _ _ _ _ _ Hm Hl).
Qed.

(** The test case "Circular Imports" as [runCompatibilityTests] runs it: the
    import map is [TEST_FILES], keyed by relative paths, so the lookup of the
    resolved path fails. *)
Lemma failed_import_marked_and_skipped_witness :
  generateGeminiTreeOutput "/w" TEST_FILES ["circular-a.md"; "circular-b.md"]
    TEST_FILES =
    Some (join NLNL (map (geminiSection "/w" TEST_FILES TEST_FILES)
                       ["circular-a.md"; "circular-b.md"])) /\
  geminiSection "/w" TEST_FILES TEST_FILES "circular-a.md" =
    join NL (flat_map (processLine "/w" TEST_FILES "circular-a.md")
               ["# Circular A"; ""] ++
             ["<!-- Import failed: " +:+ "./circular-b.md" +:+ " -->"] ++
             flat_map (processLine "/w" TEST_FILES "circular-a.md")
               [""; "Content A"; ""]).
Proof.
  apply (failed_import_marked_and_skipped "/w" TEST_FILES TEST_FILES
           ["circular-a.md"; "circular-b.md"] "circular-a.md" circular_a_md
           ["# Circular A"; ""] "@./circular-b.md" [""; "Content A"; ""]
           "./circular-b.md");
    try (vm_compute; reflexivity).
  repeat constructor; by eexists.
Defined.

(** ** Several directives on one line *)

Lemma importCount_le_totalLines content repo filePath :
  importCount (analyzeClaudeFile content repo filePath)
  <= totalLines (analyzeClaudeFile content repo filePath).
Proof. simpl. rewrite scanLines_length. simpl. apply length_filter. Qed.




(** ** Dependence on the working directory *)

(** Claim C10, as stated, does not hold: The same three arguments give two different
    texts under two working directories: [path.resolve] turns the relative
    path of the processed file into an absolute one with [process.cwd()]. *)
Lemma gemini_depends_on_cwd_counterexample :
  generateGeminiTreeOutput "/w" TEST_FILES ["circular-a.md"] CIRCULAR_IMPORTS
    = Some "# Circular A

<!-- Imported from: ./circular-b.md -->
# Circular B

@./circular-a.md

Content B
<!-- End of import from: ./circular-b.md -->

Content A
" /\
  generateGeminiTreeOutput "/elsewhere" TEST_FILES ["circular-a.md"] CIRCULAR_IMPORTS
    = Some "# Circular A

<!-- Import failed: ./circular-b.md -->

Content A
" /\
  generateGeminiTreeOutput "/w" TEST_FILES ["circular-a.md"] CIRCULAR_IMPORTS
    <> generateGeminiTreeOutput "/elsewhere" TEST_FILES ["circular-a.md"]
         CIRCULAR_IMPORTS.
Proof.
  split; [vm_compute; reflexivity|]. split; [vm_compute; reflexivity|].
  by vm_compute.
Qed.

Lemma processedLinesOf_absolute cwd1 cwd2 importMap filePath content :
  NodePath.isAbsolute filePath = true ->
  processedLinesOf cwd1 importMap filePath content =
  processedLinesOf cwd2 importMap filePath content.
Proof.
  intros Habs. rewrite !processedLinesOf_lines.
  induction (split LF content) as [|l lines IH]; simpl; [done|].
  by rewrite IH, (processLine_absolute cwd1 cwd2).
Qed.

Lemma geminiOutputArray_absolute cwd1 cwd2 files importMap processedFiles acc :
  Forall (fun p => NodePath.isAbsolute p = true) processedFiles ->
  fold_left (geminiStep cwd1 files importMap) processedFiles acc =
  fold_left (geminiStep cwd2 files importMap) processedFiles acc.
Proof.
  intros Hall. revert acc.
  induction Hall as [|p l Hp _ IH]; intros acc; simpl; [done|].
  rewrite IH. f_equal. unfold geminiStep.
  destruct acc as [out|]; [|done]. destruct (files !! p) as [c|]; [|done].
  by rewrite (processedLinesOf_absolute cwd1 cwd2).
Qed.

(** Claim C10, amended: [generateClaudeStyleOutput] is a function of its two
    arguments alone: the files it does not list have no influence on its
    output.  [generateGeminiTreeOutput] is a function of its three arguments
    and of the current working directory of the process, which
    [path.resolve] reads for a processed file given by a relative path: when
    every processed file is given by an absolute path, the output is the
    same under any two working directories. *)
Theorem renderers_depend_on_arguments_and_cwd
    cwd1 cwd2 files files' importMap processedFiles :
  Forall (fun p => NodePath.isAbsolute p = true) processedFiles ->
  Forall (fun p => files !! p = files' !! p) processedFiles ->
  generateGeminiTreeOutput cwd1 files processedFiles importMap =
    generateGeminiTreeOutput cwd2 files processedFiles importMap /\
  generateClaudeStyleOutput files processedFiles =
    generateClaudeStyleOutput files' processedFiles.
Proof.
  intros Habs Hagree. split.
  - unfold generateGeminiTreeOutput, geminiOutputArray.
    by rewrite (geminiOutputArray_absolute cwd1 cwd2).
  - unfold generateClaudeStyleOutput, claudeOutputArray.
    generalize (Some (@nil string)) as acc. clear Habs.
    induction Hagree as [|p l Hp _ IH]; intros acc; simpl; [done|].
    unfold claudeStep at 2 4. rewrite Hp. apply IH.
Qed.

Lemma renderers_depend_on_arguments_and_cwd_witness :
  generateGeminiTreeOutput "/w" NESTED_FILES ["/project/main.md"] NESTED_FILES =
    generateGeminiTreeOutput "/elsewhere" NESTED_FILES ["/project/main.md"]
      NESTED_FILES /\
  generateClaudeStyleOutput NESTED_FILES ["/project/main.md"] =
    generateClaudeStyleOutput (delete "/project/title.md" NESTED_FILES)
      ["/project/main.md"].
Proof.
  apply (renderers_depend_on_arguments_and_cwd "/w" "/elsewhere" NESTED_FILES
           (delete "/project/title.md" NESTED_FILES) NESTED_FILES
           ["/project/main.md"]);
    repeat constructor; vm_compute; reflexivity.
Defined.

(** ** Hierarchical mode: the markers in the returned text *)

(** Claim C8, as stated, does not hold: The directive [@My\ Documents/file.txt] is
    written with an escaped space; its raw path runs up to the end of the
    line.  The pattern stops at the space, and the markers of the block in
    the returned text carry what stands before it. *)
Lemma escaped_space_cut_counterexample :
  Spec.rawPath "My\ Documents/file.txt" = "My\ Documents/file.txt" /\
  matchAt SPACES_md = Some ("My" +:+ BS) /\
  generateGeminiTreeOutput "/w" {[ "CLAUDE.md" := SPACES_md ]} ["CLAUDE.md"]
    SPACES_IMPORTS
    = Some "<!-- Imported from: My\ -->
Shared notes
<!-- End of import from: My\ -->" /\
  generateGeminiTreeOutput "/w" {[ "CLAUDE.md" := SPACES_md ]} ["CLAUDE.md"]
    SPACES_IMPORTS
    <> Some (join NL
               [ "<!-- Imported from: " +:+
                   Spec.rawPath "My\ Documents/file.txt" +:+ " -->";
                 "Shared notes";
                 "<!-- End of import from: " +:+
                   Spec.rawPath "My\ Documents/file.txt" +:+ " -->" ]).
Proof.
  split; [vm_compute; reflexivity|]. split; [vm_compute; reflexivity|].
  split; [vm_compute; reflexivity|]. by vm_compute.
Qed.

(** Claim C8, amended: In the text that [generateGeminiTreeOutput] returns,
    every substituted block stands, in the place of the line of its
    directive, between the exact lines
    [<!-- Imported from: {rawPath} -->] and
    [<!-- End of import from: {rawPath} -->], where [rawPath] is what the
    pattern captures on that line: the characters written after the leftmost
    [@] that starts a token, up to the first whitespace character or the end
    of the line.  It is not the resolved path used for the lookup, and a
    path written with an escaped space is cut at that space. *)
Theorem import_markers_in_output
    cwd files importMap earlier filePath later content
    before pre importPath post after text :
  Forall (fun p => is_Some (files !! p)) (earlier ++ filePath :: later) ->
  files !! filePath = Some content ->
  split LF content = before ++ (pre +:+ "@" +:+ importPath +:+ post) :: after ->
  matchAt (pre +:+ "@") = None ->
  importPath <> "" -> wsFree importPath = true -> tokenEnd post = true ->
  importLookup importMap (fullImportPath cwd filePath importPath) = Some text ->
  generateGeminiTreeOutput cwd files (earlier ++ filePath :: later) importMap =
    Some (join NLNL
            (map (geminiSection cwd files importMap) earlier ++
             [ join NL
                 (flat_map (processLine cwd importMap filePath) before ++
                  [ "<!-- Imported from: " +:+ importPath +:+ " -->";
                    trim text;
                    "<!-- End of import from: " +:+ importPath +:+ " -->" ] ++
                  flat_map (processLine cwd importMap filePath) after) ] ++
             map (geminiSection cwd files importMap) later)).
Proof.
  intros Hall Hfile Hsplit Hpre Hne Hws Hpost Hl.
  pose proof (matchAt_first pre importPath post Hpre Hne Hws Hpost) as Hm.
  destruct (generate_total cwd files importMap _ Hall) as [_ ->].
  rewrite map_app. do 3 f_equal. cbn [map app]. f_equal.
  unfold geminiSection, textOf. rewrite Hfile.
  change (default "" (Some content)) with content.
  rewrite Hsplit, flat_map_app. cbn [flat_map].
  by rewrite (processLine_imported _ _ _ _ _ _ Hm Hl).
Qed.

(** The line [See @../../../etc/passwd for the accounts.]: the markers carry
    [../../../etc/passwd] as written, while the lookup used [/etc/passwd];
    the words around the directive are the [pre] and [post] of the line. *)
Lemma import_markers_in_output_witness :
  fullImportPath "/srv/project" "docs/guide.md" "../../../etc/passwd"
    = "/etc/passwd" /\
  generateGeminiTreeOutput "/srv/project" {[ "docs/guide.md" := GUIDE_md ]}
    ([] ++ "docs/guide.md" :: []) OUTSIDE_IMPORTS =
    Some (join NLNL
            (map (geminiSection "/srv/project" {[ "docs/guide.md" := GUIDE_md ]}
                    OUTSIDE_IMPORTS) [] ++
             [ join NL
                 (flat_map (processLine "/srv/project" OUTSIDE_IMPORTS
                              "docs/guide.md") [] ++
                  [ "<!-- Imported from: " +:+ "../../../etc/passwd" +:+ " -->";
                    trim "root:x:0:0:root:/root:/bin/sh";
                    "<!-- End of import from: " +:+ "../../../etc/passwd" +:+ " -->" ] ++
                  flat_map (processLine "/srv/project" OUTSIDE_IMPORTS
                              "docs/guide.md") []) ] ++
             map (geminiSection "/srv/project" {[ "docs/guide.md" := GUIDE_md ]}
                    OUTSIDE_IMPORTS) [])).
Proof.
  split; [reflexivity|].
  apply (import_markers_in_output "/srv/project" {[ "docs/guide.md" := GUIDE_md ]}
           OUTSIDE_IMPORTS [] "docs/guide.md" [] GUIDE_md
           [] "See " "../../../etc/passwd" " for the accounts." []
           "root:x:0:0:root:/root:/bin/sh").
  - repeat constructor. by eexists.
  - reflexivity.
  - reflexivity.
  - reflexivity.
  - discriminate.
  - reflexivity.
  - reflexivity.
  - reflexivity.
Defined.

(** * Further properties of the code *)

(** ** The scanner, completely *)

Lemma tokenEnd_takeNonWs s : tokenEnd s = true -> takeNonWs s = "".
Proof. destruct s as [|c s]; simpl; [done|]. by intros ->. Qed.

(** X1: a line holds no directive exactly when every [@] on it is the last
    character of the line or is followed by whitespace. *)
Theorem no_match_iff_every_at_is_bare line :
  matchAt line = None <->
  (forall pre post, line = pre +:+ "@" +:+ post -> tokenEnd post = true).
Proof.
  induction line as [|c line IH]; simpl.
  - split; [|done]. intros _ [|d pre] post H; simpl in H; discriminate.
  - split.
    + intros Hm [|d pre] post H; simpl in H; injection H as -> ->.
      * rewrite Ascii.eqb_refl in Hm.
        destruct (takeNonWs post) eqn:E; [|done]. by apply takeNonWs_empty.
      * assert (Hrest : matchAt (pre +:+ "@" +:+ post) = None).
        { revert Hm. destruct (Ascii.eqb d _); [|by intros H].
          destruct (takeNonWs _); [by intros H | done]. }
        exact (proj1 IH Hrest pre post eq_refl).
    + intros H.
      assert (Hrest : matchAt line = None).
      { apply IH. intros pre post ->. by apply (H (String c pre) post). }
      destruct (Ascii.eqb_spec c "@") as [->|_]; [|done].
      by rewrite (tokenEnd_takeNonWs line (H "" line eq_refl)).
Qed.

(** X2: the scanner returns [p] exactly when the line reads: a part in
    which no directive starts, an [@], the non-empty whitespace-free token
    [p], and then the end of the line or whitespace.  The token is the
    longest one (it stops only at whitespace) and what lies to its right has
    no influence. *)
Theorem match_iff_leftmost_token line p :
  matchAt line = Some p <->
  exists pre post,
    line = pre +:+ "@" +:+ p +:+ post /\ matchAt (pre +:+ "@") = None /\
    p <> "" /\ wsFree p = true /\ tokenEnd post = true.
Proof.
  split; [apply matchAt_Some|].
  intros (pre & post & -> & Hpre & Hne & Hws & Hpost). by apply matchAt_first.
Qed.

(** ** What [analyzeClaudeFile] records *)

Lemma scanLines_sound done lines acc :
  StronglySorted lt (map ai_line acc) ->
  Forall (fun e =>
            1 <= ai_line e <= length done /\
            exists line, (done ++ lines) !! (ai_line e - 1) = Some line /\
                         matchAt line = Some (ai_import e) /\
                         ai_context e = trim line) acc ->
  StronglySorted lt (map ai_line (scanLines (length done) lines acc)) /\
  Forall (fun e =>
            1 <= ai_line e <= length (done ++ lines) /\
            exists line, (done ++ lines) !! (ai_line e - 1) = Some line /\
                         matchAt line = Some (ai_import e) /\
                         ai_context e = trim line)
         (scanLines (length done) lines acc).
Proof.
  revert done acc. induction lines as [|l lines IH]; intros done acc Hs Hf; simpl.
  - split; [done|]. rewrite app_nil_r in *. done.
  - assert (Hlen : S (length done) = length (done ++ [l])).
    { rewrite length_app. simpl. lia. }
    assert (Hwhole : done ++ l :: lines = (done ++ [l]) ++ lines).
    { by rewrite <- app_assoc. }
    assert (Hweak :
      Forall (fun e =>
                1 <= ai_line e <= length (done ++ [l]) /\
                exists line, ((done ++ [l]) ++ lines) !! (ai_line e - 1) = Some line /\
                             matchAt line = Some (ai_import e) /\
                             ai_context e = trim line) acc).
    { rewrite <- Hwhole, <- Hlen. eapply Forall_impl; [exact Hf|].
      simpl. intros e [Hb He]. split; [lia|done]. }
    rewrite Hlen, Hwhole.
    destruct (matchAt l) as [p|] eqn:E; apply IH; try done.
    + rewrite map_app. apply StronglySorted_app_2.
      * intros x1 x2 Hx1 Hx2. simpl in Hx2. apply list_elem_of_singleton in Hx2 as ->.
        apply list_elem_of_fmap in Hx1 as (e & -> & He).
        rewrite Forall_forall in Hf. destruct (Hf e He) as [Hb _]. lia.
      * done.
      * simpl. repeat constructor.
    + apply Forall_app. split; [done|]. constructor; [|constructor]. simpl.
      split; [rewrite length_app; simpl; lia|].
      exists l. split; [|done].
      replace (length done + 1 - 1) with (length done) by lia.
      rewrite <- Hwhole. by apply list_lookup_middle.
Qed.

(** X3: the imports that [analyzeClaudeFile] reports are those of the text,
    in order: their line numbers increase strictly and lie between 1 and
    [totalLines], and each entry holds the token matched on the line it
    names, with that line trimmed as context. *)
Theorem reported_imports_are_of_their_lines content repo filePath :
  StronglySorted lt
    (map ai_line (atImports (analyzeClaudeFile content repo filePath))) /\
  Forall (fun e =>
            1 <= ai_line e <= totalLines (analyzeClaudeFile content repo filePath) /\
            exists line, split LF content !! (ai_line e - 1) = Some line /\
                         matchAt line = Some (ai_import e) /\
                         ai_context e = trim line)
         (atImports (analyzeClaudeFile content repo filePath)).
Proof.
  simpl. apply (scanLines_sound [] (split LF content) []); constructor.
Qed.

Lemma split_length s : length (split LF s) = S (countLF s).
Proof.
  induction s as [|c s IH]; simpl; [done|].
  destruct (Ascii.eqb c LF); simpl; [by rewrite IH|].
  destruct (split LF s) as [|w ws] eqn:E; simpl in *; [done|]. by rewrite IH.
Qed.

(** X4: [totalLines] is one more than the number of line breaks of the text
    (an empty text counts one line), [importCount] is the number of lines on
    which the pattern matches, hence at most [totalLines], and [hasImports]
    tells whether there is such a line. *)
Theorem analysis_counts content repo filePath :
  totalLines (analyzeClaudeFile content repo filePath) = S (countLF content) /\
  importCount (analyzeClaudeFile content repo filePath) =
    length (filter (fun line => hasDirective line = true) (split LF content)) /\
  importCount (analyzeClaudeFile content repo filePath)
    <= totalLines (analyzeClaudeFile content repo filePath) /\
  (hasImports (analyzeClaudeFile content repo filePath) = true <->
   exists line, line ∈ split LF content /\ matchAt line <> None).
Proof.
  split; [apply split_length|]. split; [simpl; by rewrite scanLines_length|].
  split; [apply importCount_le_totalLines|].
  simpl. rewrite scanLines_length. simpl.
  rewrite Nat.ltb_lt. split.
  - intros Hpos.
    destruct (filter (fun line => hasDirective line = true) (split LF content))
      as [|line rest] eqn:E; [simpl in Hpos; lia|].
    assert (Hin : line ∈ filter (fun line => hasDirective line = true)
                                (split LF content)) by (rewrite E; left).
    apply list_elem_of_filter in Hin as [Hd Hin].
    exists line. split; [done|]. unfold hasDirective in Hd.
    by destruct (matchAt line).
  - intros (line & Hin & Hm).
    assert (Hd : hasDirective line = true).
    { unfold hasDirective. by destruct (matchAt line). }
    assert (Hf : line ∈ filter (fun line => hasDirective line = true)
                               (split LF content)).
    { apply list_elem_of_filter. done. }
    destruct (filter _ _); [by apply elem_of_nil in Hf|simpl; lia].
Qed.

(** ** [generateReport] *)

Lemma sumImportCounts_from results n :
  fold_left (fun sum r => sum + importCount r) results n =
  n + sumImportCounts results.
Proof.
  unfold sumImportCounts. revert n.
  induction results as [|r l IH]; intros n; simpl; [lia|].
  rewrite IH, (IH (importCount r)). lia.
Qed.

Lemma sumImportCounts_cons r results :
  sumImportCounts (r :: results) = importCount r + sumImportCounts results.
Proof. unfold sumImportCounts at 1. simpl. apply sumImportCounts_from. Qed.

Lemma analyzeClaudeFile_wellFormed content repo filePath :
  wellFormed (analyzeClaudeFile content repo filePath).
Proof. by split. Qed.

Lemma withImports_le_sum results :
  Forall wellFormed results ->
  length (withImports results) <= sumImportCounts results.
Proof.
  unfold withImports.
  induction 1 as [|r l [_ Hr] _ IH]; [done|].
  rewrite sumImportCounts_cons.
  destruct (hasImports r) eqn:E.
  - rewrite filter_cons_True by done. simpl.
    symmetry in Hr. apply Nat.ltb_lt in Hr. lia.
  - rewrite filter_cons_False by (by rewrite E). lia.
Qed.

Lemma sum_zero_no_imports results :
  Forall wellFormed results ->
  length (withImports results) = 0 -> sumImportCounts results = 0.
Proof.
  unfold withImports.
  induction 1 as [|r l [_ Hr] _ IH]; [done|].
  rewrite sumImportCounts_cons.
  destruct (hasImports r) eqn:E.
  - rewrite filter_cons_True by done. done.
  - rewrite filter_cons_False by (by rewrite E). intros H0.
    symmetry in Hr. apply Nat.ltb_ge in Hr. rewrite (IH H0). lia.
Qed.

(** X5: in the summary of a report on analyses built by [analyzeClaudeFile],
    the files with imports are at most the files and at most the imports,
    the total is zero exactly when no file has imports, and that is exactly
    when the list of recommendations is empty. *)
Theorem report_summary_consistent results :
  Forall wellFormed results ->
  Report.filesWithImports (Report.summary (generateReport results))
    <= Report.totalFiles (Report.summary (generateReport results)) /\
  Report.filesWithImports (Report.summary (generateReport results))
    <= Report.totalImports (Report.summary (generateReport results)) /\
  (Report.totalImports (Report.summary (generateReport results)) = 0 <->
   Report.filesWithImports (Report.summary (generateReport results)) = 0) /\
  (Report.recommendations (generateReport results) = [] <->
   Report.totalImports (Report.summary (generateReport results)) = 0).
Proof.
  intros Hwf. simpl.
  pose proof (withImports_le_sum results Hwf) as Hle.
  pose proof (sum_zero_no_imports results Hwf) as Hz.
  split; [apply length_filter|]. split; [done|].
  split; [split; [lia|done]|].
  destruct (length (withImports results)) as [|n] eqn:E; simpl.
  - split; [intros _; by apply Hz|done].
  - split; [done|lia].
Qed.

Lemma report_summary_consistent_witness :
  let results := [analyzeClaudeFile main_md "o/r" "CLAUDE.md";
                  analyzeClaudeFile config_md "o/s" "CLAUDE.md"] in
  Report.filesWithImports (Report.summary (generateReport results))
    <= Report.totalFiles (Report.summary (generateReport results)) /\
  Report.filesWithImports (Report.summary (generateReport results))
    <= Report.totalImports (Report.summary (generateReport results)) /\
  (Report.totalImports (Report.summary (generateReport results)) = 0 <->
   Report.filesWithImports (Report.summary (generateReport results)) = 0) /\
  (Report.recommendations (generateReport results) = [] <->
   Report.totalImports (Report.summary (generateReport results)) = 0).
Proof.
  apply (report_summary_consistent
           [analyzeClaudeFile main_md "o/r" "CLAUDE.md";
            analyzeClaudeFile config_md "o/s" "CLAUDE.md"]).
  repeat constructor.
Defined.

(** X6: [averageImportsPerFile] is the literal [0] only for an empty list of
    results.  Otherwise it is the quotient of the total by the number of
    files with imports, whose divisor is zero exactly when no file has
    imports; the dividend is then zero as well, so that the value is [0/0]
    (not a number), never a non-zero count over zero. *)
Theorem report_average_operands results :
  Forall wellFormed results ->
  match Report.averageImportsPerFile (Report.summary (generateReport results)) with
  | Report.Zero => results = []
  | Report.Quotient dividend divisor =>
      results <> [] /\
      dividend = sumImportCounts results /\
      divisor = length (withImports results) /\
      (divisor = 0 <-> Forall (fun r => hasImports r = false) results) /\
      (divisor = 0 -> dividend = 0)
  end.
Proof.
  intros Hwf. simpl. destruct results as [|r l]; [done|]. simpl.
  split; [done|]. split; [done|]. split; [done|].
  split; [|by apply sum_zero_no_imports].
  unfold withImports. split.
  - intros H0. apply Forall_forall. intros x Hx.
    destruct (hasImports x) eqn:E; [|done].
    assert (Hin : x ∈ filter (fun r => hasImports r = true) (r :: l)).
    { apply list_elem_of_filter. done. }
    destruct (filter _ _); [by apply elem_of_nil in Hin|done].
  - intros Hall. destruct (filter _ _) as [|x rest] eqn:E; [done|].
    assert (Hin : x ∈ filter (fun r => hasImports r = true) (r :: l))
      by (rewrite E; left).
    apply list_elem_of_filter in Hin as [Hx Hin].
    rewrite Forall_forall in Hall. rewrite (Hall x Hin) in Hx. done.
Qed.

(** A list of one analysed file without directives: the average is [0/0]. *)
Lemma report_average_operands_witness :
  Report.averageImportsPerFile
    (Report.summary (generateReport [analyzeClaudeFile config_md "o/s" "CLAUDE.md"]))
  = Report.Quotient 0 0.
Proof.
  pose proof (report_average_operands
                [analyzeClaudeFile config_md "o/s" "CLAUDE.md"]) as H.
  destruct (Report.averageImportsPerFile _) as [|n d] eqn:E.
  - discriminate E.
  - destruct H as (_ & Hn & Hd & _); [repeat constructor|].
    rewrite Hn, Hd. reflexivity.
Defined.

(** ** The collecting loop of [main] *)

#[local] Set Warnings "-clear-no-such-hyp".

Lemma itemStep_analysisOf getFileContent st item :
  fileKey item ∉ seenFiles st ->
  itemStep getFileContent st item =
  {| allResults := allResults st ++
                   match analysisOf getFileContent item with
                   | Some a => [a]
                   | None => []
                   end;
     seenFiles := seenFiles st ∪ {[ fileKey item ]} |}.
Proof.
  intros Hnew. unfold itemStep, analysisOf. rewrite decide_False by done.
  destruct (getFileContent _ _) as [[content|]|]; try by rewrite app_nil_r.
  destruct (truthy content); [done|by rewrite app_nil_r].
Qed.

Lemma items_loop getFileContent its st :
  fold_left (itemStep getFileContent) its st =
  {| allResults := allResults st ++
                   omap (analysisOf getFileContent) (firstByKey (seenFiles st) its);
     seenFiles := seenFiles st ∪ keysOf its |}.
Proof.
  revert st. induction its as [|item its IH]; intros st; simpl.
  - rewrite app_nil_r. unfold keysOf. simpl.
    replace (seenFiles st ∪ ∅) with (seenFiles st) by set_solver. by destruct st.
  - destruct (decide (fileKey item ∈ seenFiles st)) as [Hin|Hnew].
    + unfold itemStep at 2. rewrite decide_True by done. rewrite IH. f_equal.
      unfold keysOf. simpl. set_solver.
    + rewrite (itemStep_analysisOf _ _ _ Hnew), IH. simpl.
      f_equal.
      * rewrite <- app_assoc. f_equal.
        by destruct (analysisOf getFileContent item).
      * unfold keysOf. simpl. set_solver.
Qed.

Lemma firstByKey_app seen l1 l2 :
  firstByKey seen (l1 ++ l2) =
  firstByKey seen l1 ++ firstByKey (seen ∪ keysOf l1) l2.
Proof.
  revert seen. induction l1 as [|item l1 IH]; intros seen; simpl.
  - unfold keysOf. simpl. by replace (seen ∪ ∅) with seen by set_solver.
  - destruct (decide (fileKey item ∈ seen)) as [Hin|Hnew].
    + rewrite IH. do 2 f_equal. unfold keysOf. simpl. set_solver.
    + simpl. rewrite IH. do 3 f_equal. unfold keysOf. simpl. set_solver.
Qed.

Lemma keysOf_app l1 l2 : keysOf (l1 ++ l2) = keysOf l1 ∪ keysOf l2.
Proof. unfold keysOf. rewrite map_app. set_solver. Qed.

Lemma queries_loop searchGitHub getFileContent queries st :
  fold_left (queryStep searchGitHub getFileContent) queries st =
  {| allResults := allResults st ++
                   omap (analysisOf getFileContent)
                        (firstByKey (seenFiles st) (itemsMet searchGitHub queries));
     seenFiles := seenFiles st ∪ keysOf (itemsMet searchGitHub queries) |}.
Proof.
  revert st. induction queries as [|q queries IH]; intros st; simpl.
  - rewrite app_nil_r. unfold keysOf. simpl.
    replace (seenFiles st ∪ ∅) with (seenFiles st) by set_solver. by destruct st.
  - rewrite IH. unfold queryStep.
    destruct (searchGitHub q) as [[[its|]]|]; simpl.
    + rewrite items_loop. simpl. rewrite firstByKey_app, omap_app, keysOf_app.
      f_equal; [by rewrite <- app_assoc | set_solver].
    + done.
    + done.
Qed.

(** X7: the loop of [main] with its set [seenFiles] computes this: take the
    items of the searches that answered, in order; keep the first item of
    each key [repo:path]; download these and analyse the ones that give a
    non-empty text.  At the end [seenFiles] holds the key of every item met,
    downloaded with success or not. *)
Theorem collect_first_occurrences searchGitHub getFileContent queries :
  allResults (collect searchGitHub getFileContent queries) =
    omap (analysisOf getFileContent)
         (firstByKey ∅ (itemsMet searchGitHub queries)) /\
  seenFiles (collect searchGitHub getFileContent queries) =
    keysOf (itemsMet searchGitHub queries).
Proof.
  unfold collect. rewrite queries_loop. simpl. split; [done|set_solver].
Qed.

Lemma analysisOf_key getFileContent item a :
  analysisOf getFileContent item = Some a ->
  analysisKey a = fileKey item /\ wellFormed a.
Proof.
  unfold analysisOf. destruct (getFileContent _ _) as [[content|]|]; try done.
  destruct (truthy content); [|done]. intros [= <-]. by split.
Qed.

Lemma firstByKey_fresh seen l item :
  item ∈ firstByKey seen l -> (fileKey item ∉ seen) /\ (item ∈ l).
Proof.
  revert seen. induction l as [|x l IH]; intros seen; simpl.
  - by intros ?%elem_of_nil.
  - destruct (decide (fileKey x ∈ seen)) as [Hin|Hnew].
    + intros [Hf Hl]%IH. split; [done|by right].
    + intros [->|[Hf Hl]%IH]%elem_of_cons.
      * split; [done|left].
      * split; [set_solver|by right].
Qed.

Lemma firstByKey_NoDup seen l : NoDup (map fileKey (firstByKey seen l)).
Proof.
  revert seen. induction l as [|x l IH]; intros seen; simpl.
  - constructor.
  - destruct (decide (fileKey x ∈ seen)) as [Hin|Hnew]; [apply IH|].
    simpl. constructor; [|apply IH].
    intros (y & Hy & [Hfresh _]%firstByKey_fresh)%list_elem_of_fmap.
    rewrite Hy in *. set_solver.
Qed.

Lemma analysed_keys_NoDup getFileContent l :
  NoDup (map fileKey l) ->
  NoDup (map analysisKey (omap (analysisOf getFileContent) l)).
Proof.
  induction l as [|x l IH]; simpl; [constructor|].
  intros [Hx Hl]%NoDup_cons.
  destruct (analysisOf getFileContent x) as [a|] eqn:E; [|by apply IH].
  simpl. constructor; [|by apply IH].
  intros (b & Hb & (y & Hy & Eb)%list_elem_of_omap)%list_elem_of_fmap.
  apply analysisOf_key in E as [Ea _]. apply analysisOf_key in Eb as [Eb _].
  apply Hx. apply list_elem_of_fmap. exists y. split; [congruence|done].
Qed.

(** X8: no file is analysed twice, whatever the searches return: the
    analyses collected by [main] have pairwise different keys [repo:path];
    each of them is the analysis of an item that a search returned, and it
    satisfies the relations between [importCount], [hasImports] and the list
    of imports that [generateReport] relies on. *)
Theorem collected_once searchGitHub getFileContent queries :
  NoDup (map analysisKey
           (allResults (collect searchGitHub getFileContent queries))) /\
  Forall (fun a =>
            wellFormed a /\
            exists item, item ∈ itemsMet searchGitHub queries /\
                         analysisOf getFileContent item = Some a)
         (allResults (collect searchGitHub getFileContent queries)).
Proof.
  destruct (collect_first_occurrences searchGitHub getFileContent queries)
    as [-> _].
  split.
  - apply analysed_keys_NoDup, firstByKey_NoDup.
  - apply Forall_forall. intros a (item & Hitem & Ha)%list_elem_of_omap.
    split; [by apply (analysisOf_key _ _ _ Ha)|].
    exists item. split; [|done]. by apply (firstByKey_fresh _ _ _ Hitem).
Qed.

Lemma firstByKey_not_seen seen pre item post :
  fileKey item ∉ seen -> fileKey item ∉ map fileKey pre ->
  exists kept,
    firstByKey seen (pre ++ item :: post) = kept ++ item :: firstByKey
      (seen ∪ keysOf pre ∪ {[ fileKey item ]}) post /\
    fileKey item ∉ map fileKey kept.
Proof.
  intros Hseen Hpre. rewrite firstByKey_app. simpl.
  assert (Hk : fileKey item ∉ seen ∪ keysOf pre).
  { unfold keysOf. rewrite not_elem_of_union, elem_of_list_to_set. done. }
  rewrite decide_False by done.
  exists (firstByKey seen pre). split; [done|].
  intros (y & Hy & [_ Hin]%firstByKey_fresh)%list_elem_of_fmap.
  apply Hpre. apply list_elem_of_fmap. by exists y.
Qed.

(** X9: a download that fails is not tried again.  When the first item met
    under a key gives no analysis (its download is rejected, or resolves to
    [null] or to an empty text), no analysis is collected under that key,
    even if later searches return the same file again. *)
Theorem failed_download_not_retried
    searchGitHub getFileContent queries pre item post :
  itemsMet searchGitHub queries = pre ++ item :: post ->
  fileKey item ∉ map fileKey pre ->
  analysisOf getFileContent item = None ->
  fileKey item ∉
    map analysisKey (allResults (collect searchGitHub getFileContent queries)).
Proof.
  intros Hmet Hpre Hfail.
  destruct (collect_first_occurrences searchGitHub getFileContent queries)
    as [-> _].
  rewrite Hmet.
  destruct (firstByKey_not_seen ∅ pre item post) as (kept & -> & Hkept);
    [set_solver|done|].
  rewrite omap_app. simpl. rewrite Hfail, map_app.
  intros [Hin|Hin]%elem_of_app.
  - apply list_elem_of_fmap in Hin as (a & Ha & (y & Hy & Ey)%list_elem_of_omap).
    apply analysisOf_key in Ey as [Ey _]. apply Hkept.
    apply list_elem_of_fmap. exists y. split; [congruence|done].
  - apply list_elem_of_fmap in Hin as (a & Ha & (y & Hy & Ey)%list_elem_of_omap).
    apply analysisOf_key in Ey as [Ey _].
    apply firstByKey_fresh in Hy as [Hfresh _]. apply Hfresh.
    rewrite Ha, Ey. set_solver.
Qed.

(** Six searches return the same file and its download is rejected: nothing
    is collected under its key. *)
Lemma failed_download_not_retried_witness :
  let item := {| full_name := "o/r"; path := "CLAUDE.md" |} in
  let searchGitHub := fun _ : string => Some {| items := Some [item] |} in
  let getFileContent := fun _ _ : string => Rejected in
  fileKey item ∉
    map analysisKey
      (allResults (collect searchGitHub getFileContent SEARCH_QUERIES)).
Proof.
  intros item searchGitHub getFileContent.
  apply (failed_download_not_retried searchGitHub getFileContent SEARCH_QUERIES
           [] item [item; item; item; item; item]).
  - reflexivity.
  - simpl. apply not_elem_of_nil.
  - reflexivity.
Defined.

(** ** The key of a file *)

Lemma colon_split r1 p1 r2 p2 :
  colonFree r1 = true -> colonFree r2 = true ->
  r1 +:+ ":" +:+ p1 = r2 +:+ ":" +:+ p2 -> r1 = r2 /\ p1 = p2.
Proof.
  revert r2. induction r1 as [|c r1 IH]; intros [|d r2] H1 H2 H; simpl in *.
  - by injection H as ->.
  - injection H as <- _. apply andb_prop in H2 as [H2 _].
    by rewrite Ascii.eqb_refl in H2.
  - injection H as -> _. apply andb_prop in H1 as [H1 _].
    by rewrite Ascii.eqb_refl in H1.
  - injection H as -> H. apply andb_prop in H1 as [_ H1].
    apply andb_prop in H2 as [_ H2].
    destruct (IH r2 H1 H2 H) as [-> ->]. done.
Qed.

(** X10: the key [repo:path] identifies the file as long as repository names
    hold no colon (paths may): two items with the same key are then the same
    item, so that the loop never takes one file for another. *)
Theorem fileKey_injective item1 item2 :
  colonFree (full_name item1) = true -> colonFree (full_name item2) = true ->
  fileKey item1 = fileKey item2 -> item1 = item2.
Proof.
  intros H1 H2 H. destruct item1 as [r1 p1], item2 as [r2 p2]. simpl in *.
  unfold fileKey in H. simpl in H.
  destruct (colon_split r1 p1 r2 p2 H1 H2 H) as [-> ->]. done.
Qed.

Lemma fileKey_injective_witness :
  {| full_name := "o/r"; path := "docs:old/CLAUDE.md" |} =
  {| full_name := "o/r"; path := "docs:old/CLAUDE.md" |}.
Proof.
  apply fileKey_injective; reflexivity.
Defined.

(** A colon in a repository name would let two files share a key. *)
Example fileKey_collision :
  fileKey {| full_name := "a:b"; path := "c" |} =
  fileKey {| full_name := "a"; path := "b:c" |}.
Proof. reflexivity. Qed.

(** ** The top files *)

Lemma insertByCount_perm x l : insertByCount x l ≡ₚ x :: l.
Proof.
  induction l as [|y l IH]; simpl; [done|].
  destruct (importCount x <? importCount y)%nat; [|done].
  rewrite IH. apply perm_swap.
Qed.

Lemma sortByImportCount_perm l : sortByImportCount l ≡ₚ l.
Proof.
  induction l as [|x l IH]; simpl; [done|].
  rewrite insertByCount_perm. by rewrite IH.
Qed.

Lemma insertByCount_sorted x l :
  StronglySorted (fun a b => importCount b <= importCount a) l ->
  StronglySorted (fun a b => importCount b <= importCount a) (insertByCount x l).
Proof.
  induction 1 as [|y l Hl IH Hy]; simpl; [repeat constructor|].
  destruct (importCount x <? importCount y)%nat eqn:E.
  - apply Nat.ltb_lt in E. constructor; [done|].
    rewrite insertByCount_perm. constructor; [lia|done].
  - apply Nat.ltb_ge in E. constructor; [by constructor|].
    constructor; [done|]. eapply Forall_impl; [exact Hy|]. simpl. lia.
Qed.

Lemma sortByImportCount_sorted l :
  StronglySorted (fun a b => importCount b <= importCount a) (sortByImportCount l).
Proof.
  induction l as [|x l IH]; simpl; [constructor|]. by apply insertByCount_sorted.
Qed.

Lemma insertByCount_stable n x l :
  filter (fun r => importCount r = n) (insertByCount x l) =
  filter (fun r => importCount r = n) (x :: l).
Proof.
  induction l as [|y l IH]; simpl; [done|].
  destruct (importCount x <? importCount y)%nat eqn:E; [|done].
  apply Nat.ltb_lt in E.
  destruct (decide (importCount y = n)) as [Hy|Hy].
  - rewrite (filter_cons_True _ y) by done. rewrite IH.
    rewrite (filter_cons_False _ x) by lia.
    rewrite (filter_cons_False _ x) by lia.
    by rewrite (filter_cons_True _ y) by done.
  - rewrite (filter_cons_False _ y) by done. rewrite IH.
    destruct (decide (importCount x = n)) as [Hx|Hx].
    + rewrite !(filter_cons_True _ x) by done.
      by rewrite (filter_cons_False _ y) by done.
    + rewrite !(filter_cons_False _ x) by done.
      by rewrite (filter_cons_False _ y) by done.
Qed.

Lemma sortByImportCount_stable n l :
  filter (fun r => importCount r = n) (sortByImportCount l) =
  filter (fun r => importCount r = n) l.
Proof.
  induction l as [|x l IH]; simpl; [done|].
  rewrite insertByCount_stable.
  destruct (decide (importCount x = n)) as [Hx|Hx].
  - rewrite !(filter_cons_True _ x) by done. by rewrite IH.
  - rewrite !(filter_cons_False _ x) by done. by rewrite IH.
Qed.

(** X11: the "top files" are the five files with the most imports (all of
    them when fewer than five have imports): they have imports, they come by
    decreasing [importCount], and no file with imports that is left out has
    more imports than one that is listed.  The sort keeps files of equal
    [importCount] in the order in which they were collected. *)
Theorem topFiles_are_the_largest results :
  length (topFiles results) = min 5 (length (withImports results)) /\
  StronglySorted (fun a b => importCount b <= importCount a) (topFiles results) /\
  Forall (fun r => hasImports r = true /\ r ∈ results) (topFiles results) /\
  (exists rest,
     topFiles results ++ rest ≡ₚ withImports results /\
     forall t r, t ∈ topFiles results -> r ∈ rest ->
                 importCount r <= importCount t) /\
  (forall n, filter (fun r => importCount r = n)
               (sortByImportCount (withImports results)) =
             filter (fun r => importCount r = n) (withImports results)).
Proof.
  unfold topFiles.
  pose proof (sortByImportCount_perm (withImports results)) as Hperm.
  pose proof (sortByImportCount_sorted (withImports results)) as Hsorted.
  rewrite <- (take_drop 5 (sortByImportCount (withImports results))) in Hsorted.
  split; [rewrite length_take; by rewrite Hperm|].
  split; [by eapply StronglySorted_app_1_l|].
  split.
  - apply Forall_forall. intros r Hr.
    assert (Hin : r ∈ withImports results).
    { rewrite <- Hperm. apply elem_of_take in Hr as (i & Hi & _).
      apply list_elem_of_lookup. by exists i. }
    by apply list_elem_of_filter in Hin.
  - split; [|intros n; apply sortByImportCount_stable].
    exists (drop 5 (sortByImportCount (withImports results))).
    split; [by rewrite take_drop|].
    intros t r Ht Hr.
    exact (StronglySorted_app_1_elem_of _ _ _ _ _ Hsorted Ht Hr).
Qed.

(** ** [main] when the network fails *)

(** X12: rejected searches and responses without [items] are caught: when no
    search gives items, [main] still reaches its report, which counts no
    file, keeps the average at the literal [0], recommends nothing and lists
    no top file. *)
Theorem main_without_results searchGitHub getFileContent :
  Forall (fun q => match searchGitHub q with
                   | Some results => items results = None
                   | None => True
                   end) SEARCH_QUERIES ->
  mainReport searchGitHub getFileContent =
  ( {| Report.summary :=
         {| Report.totalFiles := 0; Report.filesWithImports := 0;
            Report.totalImports := 0;
            Report.averageImportsPerFile := Report.Zero |};
       Report.files := [];
       Report.recommendations := [] |},
    [] ).
Proof.
  intros Hall. unfold mainReport.
  destruct (collect_first_occurrences searchGitHub getFileContent SEARCH_QUERIES)
    as [-> _].
  assert (Hmet : itemsMet searchGitHub SEARCH_QUERIES = []).
  { unfold itemsMet. induction Hall as [|q l Hq _ IH]; simpl; [done|].
    rewrite IH, app_nil_r.
    destruct (searchGitHub q) as [[its]|]; [|done]. simpl in *. by rewrite Hq. }
  rewrite Hmet. reflexivity.
Qed.

Lemma main_without_results_witness :
  mainReport (fun _ => None) (fun _ _ => Rejected) =
  ( {| Report.summary :=
         {| Report.totalFiles := 0; Report.filesWithImports := 0;
            Report.totalImports := 0;
            Report.averageImportsPerFile := Report.Zero |};
       Report.files := [];
       Report.recommendations := [] |},
    [] ).
Proof.
  apply (main_without_results (fun _ => None) (fun _ _ => Rejected)).
  repeat constructor.
Defined.

(** ** The generators: missing files, concatenated lists *)

Lemma gemini_loop_missing cwd files importMap processedFiles out :
  geminiOutputArray cwd files processedFiles importMap = Some out ->
  Forall (fun p => is_Some (files !! p)) processedFiles.
Proof.
  unfold geminiOutputArray. generalize (@nil string) as acc.
  revert out. induction processedFiles as [|p l IH]; intros out acc H; simpl in *.
  - constructor.
  - destruct (files !! p) as [c|] eqn:Hc.
    + constructor; [by eexists | by eapply IH].
    + by rewrite geminiStep_aborted in H.
Qed.

Lemma some_file_missing (files : gmap string string) (processedFiles : list string) :
  ~ Forall (fun p => is_Some (files !! p)) processedFiles <->
  exists p, p ∈ processedFiles /\ files !! p = None.
Proof.
  split.
  - intros Hnot. apply not_Forall_Exists in Hnot; [|intros x; apply _].
    apply Exists_exists in Hnot as (p & Hp & Hn).
    exists p. split; [done|]. simpl in Hn.
    destruct (files !! p); [|done]. exfalso. apply Hn. by eexists.
  - intros (p & Hp & Hn) Hall. rewrite Forall_forall in Hall.
    destruct (Hall p Hp) as [c Hc]. congruence.
Qed.

(** X13: each generator throws (the [TypeError] of [undefined.trim()] or
    [undefined.split()]) exactly when the list of processed files names a
    file that the [files] object does not hold; one missing file loses the
    whole output, also the blocks of the files before it. *)
Theorem generators_throw_iff_file_missing cwd files importMap processedFiles :
  (generateClaudeStyleOutput files processedFiles = None <->
   exists p, p ∈ processedFiles /\ files !! p = None) /\
  (generateGeminiTreeOutput cwd files processedFiles importMap = None <->
   exists p, p ∈ processedFiles /\ files !! p = None).
Proof.
  rewrite <- some_file_missing. split; split.
  - intros Hnone Hall.
    destruct (generate_total cwd files importMap processedFiles Hall) as [Hc _].
    congruence.
  - intros Hmiss. unfold generateClaudeStyleOutput.
    destruct (claudeOutputArray files processedFiles) as [out|] eqn:E; [|done].
    exfalso. apply Hmiss. by eapply claude_loop_missing.
  - intros Hnone Hall.
    destruct (generate_total cwd files importMap processedFiles Hall) as [_ Hg].
    congruence.
  - intros Hmiss. unfold generateGeminiTreeOutput.
    destruct (geminiOutputArray cwd files processedFiles importMap) as [out|] eqn:E;
      [|done].
    exfalso. apply Hmiss. by eapply gemini_loop_missing.
Qed.

Lemma append_assoc (a b c : string) : (a +:+ b) +:+ c = a +:+ (b +:+ c).
Proof. induction a as [|x a IH]; simpl; [done|]. by rewrite IH. Qed.

Lemma join_app sep l1 l2 :
  l1 <> [] -> l2 <> [] ->
  join sep (l1 ++ l2) = join sep l1 +:+ sep +:+ join sep l2.
Proof.
  intros H1 H2. induction l1 as [|x l1 IH]; [done|].
  destruct l1 as [|y l1].
  - simpl. by destruct l2.
  - change (join sep ((x :: y :: l1) ++ l2))
      with (x +:+ sep +:+ join sep ((y :: l1) ++ l2)).
    rewrite IH by done.
    change (join sep (x :: y :: l1)) with (x +:+ sep +:+ join sep (y :: l1)).
    by rewrite !append_assoc.
Qed.

(** X14: the output for a concatenated list is the two outputs with one
    blank line between them: both generators treat the processed files one
    by one and keep no state from one to the next.  The empty list gives the
    empty text. *)
Theorem outputs_concatenate cwd files importMap list1 list2 c1 c2 g1 g2 :
  list1 <> [] -> list2 <> [] ->
  generateClaudeStyleOutput files list1 = Some c1 ->
  generateClaudeStyleOutput files list2 = Some c2 ->
  generateGeminiTreeOutput cwd files list1 importMap = Some g1 ->
  generateGeminiTreeOutput cwd files list2 importMap = Some g2 ->
  generateClaudeStyleOutput files (list1 ++ list2) = Some (c1 +:+ NLNL +:+ c2) /\
  generateGeminiTreeOutput cwd files (list1 ++ list2) importMap
    = Some (g1 +:+ NLNL +:+ g2) /\
  generateClaudeStyleOutput files [] = Some "" /\
  generateGeminiTreeOutput cwd files [] importMap = Some "".
Proof.
  intros Hn1 Hn2 Hc1 Hc2 Hg1 Hg2.
  assert (Hall1 : Forall (fun p => is_Some (files !! p)) list1).
  { unfold generateClaudeStyleOutput in Hc1.
    destruct (claudeOutputArray files list1) eqn:E; [|done].
    by eapply claude_loop_missing. }
  assert (Hall2 : Forall (fun p => is_Some (files !! p)) list2).
  { unfold generateClaudeStyleOutput in Hc2.
    destruct (claudeOutputArray files list2) eqn:E; [|done].
    by eapply claude_loop_missing. }
  assert (Hall : Forall (fun p => is_Some (files !! p)) (list1 ++ list2)).
  { by apply Forall_app. }
  destruct (generate_total cwd files importMap list1 Hall1) as [Ec1 Eg1].
  destruct (generate_total cwd files importMap list2 Hall2) as [Ec2 Eg2].
  destruct (generate_total cwd files importMap (list1 ++ list2) Hall) as [Ec Eg].
  rewrite Ec1 in Hc1. rewrite Ec2 in Hc2. rewrite Eg1 in Hg1. rewrite Eg2 in Hg2.
  injection Hc1 as <-. injection Hc2 as <-.
  injection Hg1 as <-. injection Hg2 as <-.
  split; [|split; [|done]].
  - rewrite Ec, flat_map_app, join_app; [done| |].
    + destruct list1; [done|]. simpl. done.
    + destruct list2; [done|]. simpl. done.
  - rewrite Eg, map_app, join_app; [done| |].
    + by destruct list1.
    + by destruct list2.
Qed.

Lemma outputs_concatenate_witness :
  generateClaudeStyleOutput TEST_FILES (["circular-a.md"] ++ ["circular-b.md"])
    = Some (default "" (generateClaudeStyleOutput TEST_FILES ["circular-a.md"])
            +:+ NLNL +:+
            default "" (generateClaudeStyleOutput TEST_FILES ["circular-b.md"])) /\
  generateGeminiTreeOutput "/w" TEST_FILES (["circular-a.md"] ++ ["circular-b.md"])
    CIRCULAR_IMPORTS
    = Some (default "" (generateGeminiTreeOutput "/w" TEST_FILES ["circular-a.md"]
                          CIRCULAR_IMPORTS)
            +:+ NLNL +:+
            default "" (generateGeminiTreeOutput "/w" TEST_FILES ["circular-b.md"]
                          CIRCULAR_IMPORTS)) /\
  generateClaudeStyleOutput TEST_FILES [] = Some "" /\
  generateGeminiTreeOutput "/w" TEST_FILES [] CIRCULAR_IMPORTS = Some "".
Proof.
  apply (outputs_concatenate "/w" TEST_FILES CIRCULAR_IMPORTS
           ["circular-a.md"] ["circular-b.md"]);
    first [discriminate | vm_compute; reflexivity].
Defined.

(** ** What an import inserts *)

Lemma trimStart_split s :
  exists pre, s = pre +:+ trimStart s /\ allWs pre = true /\
              (trimStart s = "" \/ tokenEnd (trimStart s) = false).
Proof.
  induction s as [|c s (pre & Hs & Hpre & Hfirst)]; simpl.
  - exists "". auto.
  - destruct (is_ws c) eqn:E.
    + exists (String c pre). simpl. rewrite E, <- Hs. auto.
    + exists "". simpl. rewrite E. auto.
Qed.

Lemma trimEnd_split s :
  exists post, s = trimEnd s +:+ post /\ allWs post = true /\
               endsWithWs (trimEnd s) = false.
Proof.
  induction s as [|c s (post & Hs & Hpost & Hlast)]; simpl.
  - exists "". auto.
  - destruct (trimEnd s) as [|d t] eqn:Et.
    + simpl in Hs. subst post. destruct (is_ws c) eqn:E.
      * exists (String c s). simpl. rewrite E. auto.
      * exists s. simpl. rewrite E. auto.
    + exists post. simpl in Hs. simpl. rewrite <- Hs.
      split; [done|]. split; [done|]. simpl in Hlast. by destruct t.
Qed.

Lemma trimEnd_first c s :
  is_ws c = false -> exists t, trimEnd (String c s) = String c t.
Proof.
  intros Hc. simpl. destruct (trimEnd s) as [|d t]; [|by eexists].
  rewrite Hc. by eexists.
Qed.

Lemma trim_split s :
  exists pre post,
    s = pre +:+ trim s +:+ post /\ allWs pre = true /\ allWs post = true /\
    (trim s = "" \/ (tokenEnd (trim s) = false /\ endsWithWs (trim s) = false)).
Proof.
  unfold trim.
  destruct (trimStart_split s) as (pre & Hs & Hpre & Hfirst).
  destruct (trimEnd_split (trimStart s)) as (post & Ht & Hpost & Hlast).
  exists pre, post. split; [by rewrite <- Ht|]. split; [done|]. split; [done|].
  destruct Hfirst as [->|Hfirst]; [by left|].
  destruct (trimStart s) as [|c t] eqn:E; [by left|]. right.
  simpl in Hfirst. destruct (trimEnd_first c t Hfirst) as (t' & Ht').
  rewrite Ht' in *. by split.
Qed.

Lemma trim_allWs s : allWs s = true -> trim s = "".
Proof.
  unfold trim. induction s as [|c s IH]; simpl; [done|].
  intros [Hc Hs]%andb_prop. rewrite Hc. by apply IH.
Qed.

(** X15: what the generators put between their markers is the text of the
    file without the whitespace before its first and after its last
    non-whitespace character, and nothing else is removed: in flat mode the
    inner content of a block never begins or ends with whitespace. *)
Theorem flat_block_is_stripped_text (files : gmap string string) filePath content :
  files !! filePath = Some content ->
  exists pre inner post,
    claudeOutputArray files [filePath] =
      Some [fileMarker filePath; inner; endOfFileMarker filePath] /\
    content = pre +:+ inner +:+ post /\
    allWs pre = true /\ allWs post = true /\
    (inner = "" \/ (tokenEnd inner = false /\ endsWithWs inner = false)).
Proof.
  intros Hfile. destruct (trim_split content) as (pre & post & Hs & Hpre & Hpost & Hin).
  exists pre, (trim content), post. split; [|done].
  unfold claudeOutputArray. simpl. by rewrite Hfile.
Qed.

Lemma flat_block_is_stripped_text_witness :
  exists pre inner post,
    claudeOutputArray TEST_FILES ["shared/config.md"] =
      Some [fileMarker "shared/config.md"; inner;
            endOfFileMarker "shared/config.md"] /\
    config_md = pre +:+ inner +:+ post /\
    allWs pre = true /\ allWs post = true /\
    (inner = "" \/ (tokenEnd inner = false /\ endsWithWs inner = false)).
Proof.
  apply (flat_block_is_stripped_text TEST_FILES "shared/config.md" config_md).
  reflexivity.
Defined.

(** X16: an imported file that is empty is reported as a failed import,
    because the empty string is falsy in [if (importMap[fullImportPath])];
    a file that holds only whitespace is imported, as an empty line between
    the two markers. *)
Theorem empty_and_blank_imports
    cwd (importMap : gmap string string) filePath line importPath text :
  matchAt line = Some importPath ->
  importMap !! fullImportPath cwd filePath importPath = Some text ->
  (text = "" ->
   processLine cwd importMap filePath line = [importFailedMarker importPath]) /\
  (text <> "" -> allWs text = true ->
   processLine cwd importMap filePath line =
   [importedFromMarker importPath; ""; endOfImportMarker importPath]).
Proof.
  intros Hm Hl. split.
  - intros ->. apply processLine_failed; [done|].
    unfold importLookup. by rewrite Hl.
  - intros Hne Hws.
    rewrite (processLine_imported cwd importMap filePath line importPath text).
    + by rewrite trim_allWs.
    + done.
    + unfold importLookup. rewrite Hl. by destruct text.
Qed.

Lemma empty_and_blank_imports_witness :
  (NL = "" ->
   processLine "/w" {[ "/w/a.md" := NL ]} "CLAUDE.md" "@./a.md"
     = [importFailedMarker "./a.md"]) /\
  (NL <> "" -> allWs NL = true ->
   processLine "/w" {[ "/w/a.md" := NL ]} "CLAUDE.md" "@./a.md"
     = [importedFromMarker "./a.md"; ""; endOfImportMarker "./a.md"]).
Proof.
  apply (empty_and_blank_imports "/w" {[ "/w/a.md" := NL ]} "CLAUDE.md"
           "@./a.md" "./a.md" NL); reflexivity.
Defined.

(** ** The import map of the test run *)

Lemma resolve_absolute cwd a b :
  NodePath.isAbsolute cwd = true ->
  NodePath.isAbsolute (NodePath.resolve cwd a b) = true.
Proof.
  intros Hcwd. destruct cwd as [|c cwd]; [done|]. simpl in Hcwd.
  unfold NodePath.resolve. simpl.
  destruct b as [|x b]; simpl.
  - destruct a as [|y a]; simpl.
    + by rewrite Hcwd.
    + destruct (NodePath.is_slash y); simpl; [done|]. by rewrite Hcwd.
  - destruct (NodePath.is_slash x); simpl; [done|].
    destruct a as [|y a]; simpl.
    + by rewrite Hcwd.
    + destruct (NodePath.is_slash y); simpl; [done|]. by rewrite Hcwd.
Qed.

(** X17: every key looked up in the import map is an absolute path, so an
    import map whose keys are all relative never answers.  This is the
    situation of [runCompatibilityTests], which passes [TEST_FILES] as the
    import map: in its hierarchical outputs every line with a directive
    becomes an [Import failed] comment and every other line is kept. *)
Theorem relative_import_map_never_answers
    cwd (importMap : gmap string string) filePath content :
  NodePath.isAbsolute cwd = true ->
  map_Forall (fun key _ => NodePath.isAbsolute key = false) importMap ->
  processedLinesOf cwd importMap filePath content =
  map (fun line => match matchAt line with
                   | Some importPath => importFailedMarker importPath
                   | None => line
                   end) (split LF content).
Proof.
  intros Hcwd Hkeys. rewrite processedLinesOf_lines.
  induction (split LF content) as [|line lines IH]; simpl; [done|].
  rewrite IH. f_equal. unfold processLine.
  destruct (matchAt line) as [p|]; [|done].
  unfold importLookup.
  destruct (importMap !! fullImportPath cwd filePath p) as [text|] eqn:E; [|done].
  pose proof (map_Forall_lookup_1 _ _ _ _ Hkeys E) as Hrel. simpl in Hrel.
  unfold fullImportPath in Hrel. rewrite resolve_absolute in Hrel by done. done.
Qed.

Lemma relative_import_map_never_answers_witness :
  processedLinesOf "/w" TEST_FILES "main.md" main_md =
  map (fun line => match matchAt line with
                   | Some importPath => importFailedMarker importPath
                   | None => line
                   end) (split LF main_md).
Proof.
  apply (relative_import_map_never_answers "/w" TEST_FILES "main.md" main_md).
  - reflexivity.
  - apply map_Forall_to_list. vm_compute. repeat constructor.
Defined.

(** ** Sizes *)

Lemma processLine_length cwd importMap filePath line :
  length (processLine cwd importMap filePath line) =
  if importSucceeds cwd importMap filePath line then 3 else 1.
Proof.
  unfold processLine, importSucceeds. destruct (matchAt line) as [p|]; [|done].
  by destruct (importLookup importMap (fullImportPath cwd filePath p)).
Qed.

Lemma importSucceeds_hasDirective cwd importMap filePath line :
  importSucceeds cwd importMap filePath line = true -> hasDirective line = true.
Proof. unfold importSucceeds, hasDirective. by destruct (matchAt line). Qed.

(** X18: the hierarchical rendering of a file has one array element per line
    of the file and two more for each line whose import succeeds; the lines
    whose import succeeds are among those that [analyzeClaudeFile] counts,
    since both functions use the same pattern. *)
Theorem hierarchical_array_length cwd importMap filePath content repo :
  length (processedLinesOf cwd importMap filePath content) =
    totalLines (analyzeClaudeFile content repo filePath) +
    2 * length (filter (fun line => importSucceeds cwd importMap filePath line = true)
                       (split LF content)) /\
  length (filter (fun line => importSucceeds cwd importMap filePath line = true)
                 (split LF content))
    <= importCount (analyzeClaudeFile content repo filePath).
Proof.
  rewrite processedLinesOf_lines. simpl. rewrite scanLines_length. simpl.
  induction (split LF content) as [|line lines [IH1 IH2]]; simpl; [done|].
  rewrite length_app, processLine_length, IH1.
  destruct (importSucceeds cwd importMap filePath line) eqn:E.
  - rewrite (filter_cons_True _ line) by done.
    rewrite (filter_cons_True _ line) by by eapply importSucceeds_hasDirective.
    simpl. lia.
  - rewrite (filter_cons_False _ line) by (by rewrite E).
    destruct (hasDirective line) eqn:Hd.
    + rewrite (filter_cons_True _ line) by done. simpl. lia.
    + rewrite (filter_cons_False _ line) by (by rewrite Hd). lia.
Qed.

Lemma countLF_append a b : countLF (a +:+ b) = countLF a + countLF b.
Proof. induction a as [|c a IH]; simpl; [done|]. rewrite IH. lia. Qed.

Lemma countLF_join l :
  l <> [] ->
  countLF (join NLNL l) + 2 = sum_list_with countLF l + 2 * length l.
Proof.
  intros Hl. induction l as [|x l IH]; [done|].
  destruct l as [|y l].
  - simpl. lia.
  - change (join NLNL (x :: y :: l)) with (x +:+ NLNL +:+ join NLNL (y :: l)).
    rewrite !countLF_append.
    change (countLF NLNL) with 2.
    assert (Hy : y :: l <> []) by done. specialize (IH Hy).
    change (sum_list_with countLF (x :: y :: l))
      with (countLF x + sum_list_with countLF (y :: l)).
    change (length (x :: y :: l)) with (S (length (y :: l))). lia.
Qed.

Lemma countLF_fileMarker p : countLF (fileMarker p) = countLF p.
Proof. unfold fileMarker. rewrite !countLF_append. simpl. lia. Qed.

Lemma countLF_endOfFileMarker p : countLF (endOfFileMarker p) = countLF p.
Proof. unfold endOfFileMarker. rewrite !countLF_append. simpl. lia. Qed.

(** X19: the number of lines that [runCompatibilityTests] measures on the
    flat output, [claudeOutput.split('\n').length].  Each processed file
    gives its two markers, the lines of its trimmed text and a blank line on
    either side of that text, and a blank line separates two files: for
    [n >= 1] files whose paths hold no line break the count is [6 n - 1]
    plus the line breaks inside the trimmed texts. *)
Theorem flat_output_line_count (files : gmap string string) processedFiles output :
  processedFiles <> [] ->
  Forall (fun p => countLF p = 0) processedFiles ->
  generateClaudeStyleOutput files processedFiles = Some output ->
  length (split LF output) + 1 =
    6 * length processedFiles +
    sum_list_with (fun p => countLF (trim (textOf files p))) processedFiles.
Proof.
  intros Hne Hpaths Hout.
  assert (Hall : Forall (fun p => is_Some (files !! p)) processedFiles).
  { unfold generateClaudeStyleOutput in Hout.
    destruct (claudeOutputArray files processedFiles) eqn:E; [|done].
    by eapply claude_loop_missing. }
  destruct (generate_total "" files ∅ processedFiles Hall) as [Ec _].
  rewrite Ec in Hout. injection Hout as <-.
  rewrite split_length.
  assert (Hblocks : flat_map (claudeBlock files) processedFiles <> []).
  { destruct processedFiles; [done|]. simpl. done. }
  pose proof (countLF_join _ Hblocks) as Hj.
  assert (Hsum :
    sum_list_with countLF (flat_map (claudeBlock files) processedFiles) =
    sum_list_with (fun p => countLF (trim (textOf files p))) processedFiles /\
    length (flat_map (claudeBlock files) processedFiles) = 3 * length processedFiles).
  { clear Hne Hall Ec Hblocks Hj.
    induction Hpaths as [|p l Hp _ [IH1 IH2]]; [done|].
    change (flat_map (claudeBlock files) (p :: l))
      with ([fileMarker p; trim (textOf files p); endOfFileMarker p] ++
            flat_map (claudeBlock files) l).
    rewrite sum_list_with_app, length_app, IH1, IH2.
    cbn [sum_list_with length].
    rewrite countLF_fileMarker, countLF_endOfFileMarker, Hp.
    split; lia. }
  destruct Hsum as [Hs Hl]. rewrite Hs, Hl in Hj. lia.
Qed.

(** The test case "Nested Imports": four files, 18 line breaks inside their
    trimmed texts, 41 lines of output (the fixture has 41 lines). *)
Lemma flat_output_line_count_witness :
  length (split LF
    (default "" (generateClaudeStyleOutput TEST_FILES
       ["main.md"; "components/header.md"; "shared/title.md"; "shared/config.md"])))
  + 1 =
  6 * 4 +
  sum_list_with (fun p => countLF (trim (textOf TEST_FILES p)))
    ["main.md"; "components/header.md"; "shared/title.md"; "shared/config.md"].
Proof.
  apply (flat_output_line_count TEST_FILES
           ["main.md"; "components/header.md"; "shared/title.md"; "shared/config.md"]).
  - discriminate.
  - repeat constructor.
  - vm_compute. reflexivity.
Defined.

(** ** The names of the output files of [runCompatibilityTests] *)

Lemma hyphenate_wsFree inRun s : wsFree (hyphenate inRun s) = true.
Proof.
  revert inRun. induction s as [|c s IH]; intros inRun; simpl; [done|].
  destruct (is_ws c) eqn:E.
  - destruct inRun; [apply IH|]. simpl. apply IH.
  - simpl. by rewrite E, IH.
Qed.

Lemma wsFree_append a b :
  wsFree a = true -> wsFree b = true -> wsFree (a +:+ b) = true.
Proof.
  intros Ha Hb. induction a as [|c a IH]; simpl in *; [done|].
  apply andb_prop in Ha as [Hc Ha]. by rewrite Hc, IH.
Qed.

Lemma lowerUnit_idem c : lowerUnit (lowerUnit c) = lowerUnit c.
Proof. destruct c as [[] [] [] [] [] [] [] []]; reflexivity. Qed.

Lemma is_ws_lowerUnit c : is_ws (lowerUnit c) = is_ws c.
Proof. destruct c as [[] [] [] [] [] [] [] []]; reflexivity. Qed.

Lemma toLowerCase_idem s : toLowerCase (toLowerCase s) = toLowerCase s.
Proof. induction s as [|c s IH]; simpl; [done|]. by rewrite lowerUnit_idem, IH. Qed.

Lemma toLowerCase_append a b :
  toLowerCase (a +:+ b) = toLowerCase a +:+ toLowerCase b.
Proof. induction a as [|c a IH]; simpl; [done|]. by rewrite IH. Qed.

Lemma toLowerCase_allWs w : allWs (toLowerCase w) = allWs w.
Proof. induction w as [|c w IH]; simpl; [done|]. by rewrite is_ws_lowerUnit, IH. Qed.

Lemma hyphenate_run inRun w b :
  w <> "" -> allWs w = true ->
  hyphenate inRun (w +:+ b) =
  (if inRun then "" else "-") +:+ hyphenate true b.
Proof.
  intros Hne Hw. revert inRun. induction w as [|c w IH]; intros inRun; [done|].
  simpl in Hw. apply andb_prop in Hw as [Hc Hw]. simpl. rewrite Hc.
  destruct w as [|d w].
  - simpl. by destruct inRun.
  - rewrite (IH ltac:(done) Hw true). by destruct inRun.
Qed.

Lemma hyphenate_append inRun a :
  exists st, forall y,
    hyphenate inRun (a +:+ y) = hyphenate inRun a +:+ hyphenate st y.
Proof.
  revert inRun. induction a as [|c a IH]; intros inRun; simpl.
  - by exists inRun.
  - destruct (is_ws c).
    + destruct (IH true) as (st & Hst). exists st. intros y.
      rewrite Hst. by destruct inRun.
    + destruct (IH false) as (st & Hst). exists st. intros y. by rewrite Hst.
Qed.

(** X20: the name of an output file holds no whitespace, and it does not
    tell apart two test-case names that differ only in letter case or in the
    whitespace between their words (a run of whitespace of any length and
    kind becomes one hyphen): such test cases write to the same two files,
    the later one over the earlier. *)
Theorem output_file_names_collide name before after gap1 gap2 :
  gap1 <> "" -> allWs gap1 = true -> gap2 <> "" -> allWs gap2 = true ->
  wsFree (claudeFileName name) = true /\
  wsFree (geminiFileName name) = true /\
  claudeFileName (toLowerCase name) = claudeFileName name /\
  geminiFileName (toLowerCase name) = geminiFileName name /\
  claudeFileName (before +:+ gap1 +:+ after) =
    claudeFileName (before +:+ gap2 +:+ after) /\
  geminiFileName (before +:+ gap1 +:+ after) =
    geminiFileName (before +:+ gap2 +:+ after).
Proof.
  intros Hn1 Hw1 Hn2 Hw2.
  assert (Hslug : slug (before +:+ gap1 +:+ after) = slug (before +:+ gap2 +:+ after)).
  { unfold slug. rewrite !toLowerCase_append.
    destruct (hyphenate_append false (toLowerCase before)) as (st & Hst).
    rewrite !Hst. f_equal.
    assert (Hg1 : toLowerCase gap1 <> "") by by destruct gap1.
    assert (Hg2 : toLowerCase gap2 <> "") by by destruct gap2.
    assert (Ha1 : allWs (toLowerCase gap1) = true) by by rewrite toLowerCase_allWs.
    assert (Ha2 : allWs (toLowerCase gap2) = true) by by rewrite toLowerCase_allWs.
    by rewrite (hyphenate_run st _ _ Hg1 Ha1), (hyphenate_run st _ _ Hg2 Ha2). }
  unfold claudeFileName, geminiFileName.
  split; [apply wsFree_append; [apply hyphenate_wsFree|done]|].
  split; [apply wsFree_append; [apply hyphenate_wsFree|done]|].
  unfold slug at 1 3. rewrite toLowerCase_idem. fold (slug name).
  split; [done|]. split; [done|]. by rewrite Hslug.
Qed.

(** "Nested Imports" and "nested  imports" share their output files. *)
Lemma output_file_names_collide_witness :
  wsFree (claudeFileName "Nested Imports") = true /\
  wsFree (geminiFileName "Nested Imports") = true /\
  claudeFileName (toLowerCase "Nested Imports") = claudeFileName "Nested Imports" /\
  geminiFileName (toLowerCase "Nested Imports") = geminiFileName "Nested Imports" /\
  claudeFileName ("Nested" +:+ " " +:+ "Imports") =
    claudeFileName ("Nested" +:+ "  " +:+ "Imports") /\
  geminiFileName ("Nested" +:+ " " +:+ "Imports") =
    geminiFileName ("Nested" +:+ "  " +:+ "Imports").
Proof.
  apply (output_file_names_collide "Nested Imports" "Nested" "Imports" " " "  ");
    first [discriminate | reflexivity].
Defined.

(** ** [rewrite_msg.sh]: the rewritten first line *)

Lemma substr0_length n s :
  String.length (RewriteMsg.substr0 n s) = Nat.min n (String.length s).
Proof.
  revert s. induction n as [|n IH]; intros [|c s]; simpl; try done.
  by rewrite IH.
Qed.

Lemma substr0_all n s :
  String.length s <= n -> RewriteMsg.substr0 n s = s.
Proof.
  revert s. induction n as [|n IH]; intros [|c s]; simpl; try done; [lia|].
  intros H. rewrite IH; [done|lia].
Qed.

(** X21: the cut of the first line: the result is never longer than 60
    characters; a line of at most 60 characters is not changed; a longer one
    becomes its first 57 characters followed by three dots, 60 characters in
    all. *)
Theorem truncate_at_most_60 line :
  String.length (RewriteMsg.truncate line) <= 60 /\
  (String.length line <= 60 -> RewriteMsg.truncate line = line) /\
  (60 < String.length line ->
   RewriteMsg.truncate line = RewriteMsg.substr0 57 line +:+ "..." /\
   String.length (RewriteMsg.truncate line) = 60).
Proof.
  unfold RewriteMsg.truncate.
  destruct (Nat.ltb_spec 60 (String.length line)) as [Hlong|Hshort].
  - assert (Hlen : String.length (RewriteMsg.substr0 57 line +:+ "...") = 60).
    { rewrite length_append, substr0_length.
      change (String.length "...") with 3. lia. }
    rewrite Hlen. split; [lia|]. split; [lia|done].
  - split; [lia|]. split; [done|lia].
Qed.

Lemma noAsciiCapital_append a b :
  noAsciiCapital a = true -> noAsciiCapital b = true ->
  noAsciiCapital (a +:+ b) = true.
Proof.
  intros Ha Hb. induction a as [|c a IH]; simpl in *; [done|].
  apply andb_prop in Ha as [Hc Ha]. by rewrite Hc, IH.
Qed.

Lemma lowerByte_not_capital c :
  negb (N.leb 65 (N_of_ascii (RewriteMsg.lowerByte c)) &&
        N.leb (N_of_ascii (RewriteMsg.lowerByte c)) 90) = true.
Proof. destruct c as [[] [] [] [] [] [] [] []]; reflexivity. Qed.

Lemma tr_lower_noAsciiCapital s : noAsciiCapital (RewriteMsg.tr_lower s) = true.
Proof.
  induction s as [|c s IH]; simpl; [done|].
  by rewrite lowerByte_not_capital, IH.
Qed.

Lemma substr0_noAsciiCapital n s :
  noAsciiCapital s = true -> noAsciiCapital (RewriteMsg.substr0 n s) = true.
Proof.
  revert s. induction n as [|n IH]; intros [|c s]; simpl; try done.
  intros [Hc Hs]%andb_prop. by rewrite Hc, IH.
Qed.

Lemma substr0_append a b n :
  String.length a <= n ->
  RewriteMsg.substr0 n (a +:+ b) = a +:+ RewriteMsg.substr0 (n - String.length a) b.
Proof.
  revert n. induction a as [|c a IH]; intros n Hn; simpl in *.
  - by rewrite Nat.sub_0_r.
  - destruct n as [|n]; [lia|]. simpl. rewrite IH; [done|lia].
Qed.

Lemma inferType_inferred line :
  RewriteMsg.inferType line ∈ RewriteMsg.inferredTypes.
Proof.
  unfold RewriteMsg.inferType, RewriteMsg.inferredTypes.
  repeat match goal with
         | |- context [if ?b then _ else _] => destruct b
         end;
    repeat first [apply list_elem_of_here | apply list_elem_of_further].
Qed.

(** X22: the new first line of a message that is not in conventional form
    has at most 60 characters and no capital letter A-Z, and it begins with
    an inferred type followed by a colon and a space.  The inferred type is
    one of [fix], [feat], [docs], [test], [refactor], [style], [ci], [perf]
    and [chore]; [build] and [revert] are never inferred. *)
Theorem unconventional_line_rewritten first_line :
  String.length (RewriteMsg.rewriteUnconventional first_line) <= 60 /\
  noAsciiCapital (RewriteMsg.rewriteUnconventional first_line) = true /\
  RewriteMsg.inferType first_line ∈ RewriteMsg.inferredTypes /\
  RewriteMsg.inferType first_line <> "build" /\
  RewriteMsg.inferType first_line <> "revert" /\
  exists rest,
    RewriteMsg.rewriteUnconventional first_line =
    RewriteMsg.inferType first_line +:+ ": " +:+ rest.
Proof.
  pose proof (inferType_inferred first_line) as Hty.
  unfold RewriteMsg.rewriteUnconventional.
  set (body := RewriteMsg.tr_lower (RewriteMsg.echo first_line)).
  assert (Hbody : noAsciiCapital body = true) by apply tr_lower_noAsciiCapital.
  assert (Hlower : noAsciiCapital (RewriteMsg.inferType first_line) = true /\
                   String.length (RewriteMsg.inferType first_line +:+ ": ") <= 57).
  { unfold RewriteMsg.inferredTypes in Hty.
    repeat (apply elem_of_cons in Hty as [->|Hty]; [by split; [reflexivity|simpl; lia]|]).
    by apply elem_of_nil in Hty. }
  destruct Hlower as [Hlower Hshort].
  assert (Hwhole : noAsciiCapital
                     (RewriteMsg.inferType first_line +:+ ": " +:+ body) = true).
  { apply noAsciiCapital_append; [done|]. by apply noAsciiCapital_append. }
  split; [apply truncate_at_most_60|]. split; [|split; [done|]].
  - unfold RewriteMsg.truncate. destruct (Nat.ltb _ _); [|done].
    apply noAsciiCapital_append; [|done]. by apply substr0_noAsciiCapital.
  - split; [|split].
    + unfold RewriteMsg.inferredTypes in Hty. intros E. rewrite E in Hty.
      repeat (apply elem_of_cons in Hty as [Hty|Hty]; [discriminate|]).
      by apply elem_of_nil in Hty.
    + unfold RewriteMsg.inferredTypes in Hty. intros E. rewrite E in Hty.
      repeat (apply elem_of_cons in Hty as [Hty|Hty]; [discriminate|]).
      by apply elem_of_nil in Hty.
    + unfold RewriteMsg.truncate. destruct (Nat.ltb _ _); [|by exists body].
      rewrite <- append_assoc.
      rewrite substr0_append by done.
      eexists. rewrite !append_assoc. reflexivity.
Qed.
